(** * cmd-guard: the risk classification engine

    A shallow embedding of [src/analyzer.js], [src/riskPatterns.js] and
    [src/suggestions.js], with the confirmation prompt of [bin/cmdguard.js],
    and the properties of the analysis they compute.

    Strings.  A JavaScript string is a sequence of UTF-16 code units.  The
    embedding uses [string]; each [ascii] stands for the code unit of the same
    number, so the model covers the commands whose code units are below 256
    (every catalog key and every literal of the source is in that range). *)

From Stdlib Require Import Strings.String Strings.Ascii Lists.List Bool.Bool Arith.PeanoNat Lia.
From Stdlib Require Import Sorting.Permutation.
Import ListNotations.
Set Warnings "-register-all".
Open Scope list_scope.
Open Scope string_scope.

(** ** JavaScript string primitives used by the engine *)

Module Js.

(** [WhiteSpace] and [LineTerminator] of ECMAScript, below 256: TAB, LF, VT,
    FF, CR, SP and NBSP.  Both [String.prototype.trim] and the regular
    expression class [\s] use this set. *)
Definition whiteSpace : list ascii :=
  [ "009"; "010"; "011"; "012"; "013"; " "; "160" ]%char.

Definition isSpace (c : ascii) : bool := existsb (Ascii.eqb c) whiteSpace.

Fixpoint trimStart (s : string) : string :=
  match s with
  | EmptyString => EmptyString
  | String c r => if isSpace c then trimStart r else s
  end.

(** [trimEnd] drops the trailing white space: a character is kept when it is
    not white space or when something is kept after it. *)
Fixpoint trimEnd (s : string) : string :=
  match s with
  | EmptyString => EmptyString
  | String c r =>
      match trimEnd r with
      | EmptyString => if isSpace c then EmptyString else String c EmptyString
      | r' => String c r'
      end
  end.

(** [s.trim()] *)
Definition trim (s : string) : string := trimEnd (trimStart s).

(** [s.split(/\s+/)].  [inSep] tells that the previous character belonged to
    a separator run.  As in JavaScript, a separator at either end leaves an
    empty token there and the empty string splits into one empty token. *)
Fixpoint splitWs (inSep : bool) (s : string) : list string :=
  match s with
  | EmptyString => [EmptyString]
  | String c r =>
      if isSpace c then
        if inSep then splitWs true r else EmptyString :: splitWs true r
      else
        match splitWs false r with
        | t :: ts => String c t :: ts
        | [] => [String c EmptyString]
        end
  end.

Definition split (s : string) : list string := splitWs false s.

(** [xs.join(sep)] *)
Fixpoint join (sep : string) (xs : list string) : string :=
  match xs with
  | [] => EmptyString
  | [x] => x
  | x :: rest => x ++ sep ++ join sep rest
  end.

(** [s.startsWith(p)] *)
Definition startsWith (s p : string) : bool := String.prefix p s.

(** [s.includes(p)]: [p] starts at some position of [s]. *)
Fixpoint includes (s p : string) : bool :=
  if String.prefix p s then true
  else match s with
       | EmptyString => false
       | String _ r => includes r p
       end.

(** [xs.includes(x)] on an array of strings (strict equality). *)
Definition arrIncludes (xs : list string) (x : string) : bool :=
  existsb (String.eqb x) xs.

(** Truthiness of a string: only the empty string is falsy. *)
Definition truthy (s : string) : bool := negb (String.eqb s EmptyString).

(** The property names every object literal inherits from
    [Object.prototype]; each names a function, except [__proto__], which names
    [Object.prototype] itself.  All of them are truthy and none is a string. *)
Definition objectPrototypeKeys : list string :=
  [ "constructor"; "__defineGetter__"; "__defineSetter__"; "hasOwnProperty";
    "__lookupGetter__"; "__lookupSetter__"; "isPrototypeOf";
    "propertyIsEnumerable"; "toString"; "valueOf"; "__proto__";
    "toLocaleString" ].

(** The outcome of [obj[key]] on an object literal: an own property, a member
    inherited from [Object.prototype], or [undefined]. *)
Inductive Lookup (A : Type) : Type :=
| Own (a : A)
| Inherited (key : string)
| Undefined.
Arguments Own {A} a.
Arguments Inherited {A} key.
Arguments Undefined {A}.

Fixpoint getOwn {A : Type} (obj : list (string * A)) (key : string) : option A :=
  match obj with
  | [] => None
  | (k, v) :: rest => if String.eqb k key then Some v else getOwn rest key
  end.

(** [obj[key]] *)
Definition get {A : Type} (obj : list (string * A)) (key : string) : Lookup A :=
  match getOwn obj key with
  | Some v => Own v
  | None => if arrIncludes objectPrototypeKeys key then Inherited key else Undefined
  end.

End Js.

(** ** analyzer.js: the command splitter *)

Record Command : Type := mkCommand { tool : string; args : list string }.

Definition parseCommand (command : string) : Command :=
  let trimmed := Js.trim command in
  if negb (Js.truthy trimmed) then mkCommand EmptyString []
  else
    let parts := Js.split trimmed in
    mkCommand (hd EmptyString parts) (tl parts).

(** ** riskPatterns.js: the pattern catalog and the matcher *)

Inductive Severity : Type := low | medium | high.

Definition Severity_eqb (a b : Severity) : bool :=
  match a, b with
  | low, low | medium, medium | high, high => true
  | _, _ => false
  end.

(** A catalog entry and a detected risk are objects of one shape: an optional
    [flag], an optional [pattern], a [risk] level and a [reason]. *)
Record Risk : Type := mkRisk {
  flag : option string;
  pattern : option string;
  risk : Severity;
  reason : string
}.

Definition byFlag (f : string) (r : Severity) (why : string) : Risk :=
  mkRisk (Some f) None r why.
Definition byPattern (p : string) (r : Severity) (why : string) : Risk :=
  mkRisk None (Some p) r why.

(** A member of a [subcommands] object: either an object with a [risks]
    array (and a [safer] or [reason] note), or an object that only nests
    further members, as [docker.subcommands.system] does. *)
Inductive SubPattern : Type :=
| SubRisks (risks : list Risk) (safer reason : option string)
| SubNested (members : list (string * SubPattern)).

(** [subPattern.risks]; an object that only nests has no such property. *)
Definition subRisks (sp : SubPattern) : option (list Risk) :=
  match sp with
  | SubRisks rs _ _ => Some rs
  | SubNested _ => None
  end.

Record Pattern : Type := mkPattern {
  p_tool : string;
  p_risks : option (list Risk);
  p_subcommands : option (list (string * SubPattern));
  p_description : string
}.

Definition riskPatterns : list (string * Pattern) :=
  [ ("rm", mkPattern "rm"
      (Some [ byFlag "-rf" high "Recursively deletes without confirmation";
              byFlag "-f" high "Forces deletion, ignores permissions";
              byFlag "-r" medium "Recursive deletion; combine with -f for high risk" ])
      None "File deletion command");
    ("git", mkPattern "git" None
      (Some [ ("push", SubRisks
                 [ byFlag "--force" high "Overwrites remote history; may affect team";
                   byFlag "-f" high "Same as --force; destructive to shared repo" ]
                 (Some "git push --force-with-lease (checks remote changes first)") None);
              ("reset", SubRisks
                 [ byFlag "--hard" high "Discards all uncommitted changes irreversibly" ]
                 (Some "git reset (without --hard) or create backup branch first") None);
              ("clean", SubRisks
                 [ byFlag "-f" high "Forces deletion of untracked files";
                   byFlag "-fd" high "Deletes untracked files AND directories" ]
                 None None) ])
      "Git version control");
    ("docker", mkPattern "docker" None
      (Some [ ("system", SubNested
                 [ ("prune", SubRisks
                      [ byFlag "-a" high "Removes all unused images (may be intentional)";
                        byFlag "--volumes" high "Deletes unused volumes with potential data" ]
                      None (Some "Removes Docker resources; can be costly if accidental")) ]);
              ("rmi", SubRisks
                 [ byFlag "-f" high "Force removes image, breaks dependent containers" ]
                 None (Some "Permanently deletes Docker images"));
              ("rm", SubRisks
                 [ byFlag "-f" medium "Force removes container; data loss possible" ]
                 None (Some "Deletes Docker containers")) ])
      "Docker container/image operations");
    ("dd", mkPattern "dd"
      (Some [ byPattern "if=/dev/" high "Reading from raw disk device";
              byPattern "of=/dev/" high "Writing to raw disk device; IRREVERSIBLE data corruption" ])
      None "Disk/device data copy; extreme risk with wrong arguments");
    ("chmod", mkPattern "chmod"
      (Some [ byFlag "777" high "World-readable/writable; major security vulnerability";
              byFlag "755" low "Standard; acceptable for most executables" ])
      None "File permission change");
    ("chown", mkPattern "chown"
      (Some [ byFlag "-R" high "Recursively changes ownership; can break system access" ])
      None "Change file owner");
    ("sudo", mkPattern "sudo"
      (Some [ byPattern "sudo" medium "Executing with root privileges; verify command is safe" ])
      None "Elevated privilege execution");
    ("curl", mkPattern "curl"
      (Some [ byFlag "| sh" high "Piping to shell executes arbitrary code from URL";
              byFlag "| bash" high "Piping to bash executes arbitrary code from URL" ])
      None "HTTP client; can execute remote code if piped");
    ("wget", mkPattern "wget"
      (Some [ byFlag "| sh" high "Piping to shell executes arbitrary code" ])
      None "File downloader; dangerous if output is executed") ].

(** [riskItem.flag && args.includes(riskItem.flag)]: the flag is a non-empty
    string and one of the tokens. *)
Definition flagHit (args : list string) (item : Risk) : bool :=
  match flag item with
  | Some f => Js.truthy f && Js.arrIncludes args f
  | None => false
  end.

(** [riskItem.pattern && argStr.includes(riskItem.pattern)] *)
Definition patternHit (argStr : string) (item : Risk) : bool :=
  match pattern item with
  | Some p => Js.truthy p && Js.includes argStr p
  | None => false
  end.

(** The body of the [forEach] over the tool's own [risks]: up to two pushes
    per entry, the flag one first. *)
Definition directRisks (args : list string) (argStr : string) (item : Risk) : list Risk :=
  ((if flagHit args item
    then [mkRisk (flag item) None (risk item) (reason item)] else [])
   ++
   (if patternHit argStr item
    then [mkRisk None (pattern item) (risk item) (reason item)] else []))%list.

(** The body of the [forEach] over a subcommand's [risks]:
    [args.includes(riskItem.flag)], with no test of the pattern. *)
Definition subcommandRisks (args : list string) (item : Risk) : list Risk :=
  match flag item with
  | Some f =>
      if Js.arrIncludes args f
      then [mkRisk (flag item) None (risk item) (reason item)] else []
  | None => []
  end.

Record RiskAnalysis : Type := mkRiskAnalysis {
  found : bool;
  ra_tool : string;
  ra_risks : list Risk;
  ra_description : option string
}.

Definition analyzeRisks (tool : string) (args : list string) : RiskAnalysis :=
  match Js.get riskPatterns tool with
  | Js.Undefined => mkRiskAnalysis false tool [] None
  | Js.Inherited _ =>
      (* a member of Object.prototype is truthy and has neither [risks],
         [subcommands] nor [description] *)
      mkRiskAnalysis true tool [] None
  | Js.Own pat =>
      let argStr := Js.join " " args in
      let direct :=
        match p_risks pat with
        | Some rs => flat_map (directRisks args argStr) rs
        | None => []
        end in
      let sub :=
        match p_subcommands pat with
        | Some subcommands =>
            match nth_error args 0 with
            | Some subCmd =>
                if Js.truthy subCmd then
                  match Js.get subcommands subCmd with
                  | Js.Own subPattern =>
                      match subRisks subPattern with
                      | Some rs => flat_map (subcommandRisks args) rs
                      | None => []
                      end
                  | Js.Inherited _ => []
                  | Js.Undefined => []
                  end
                else []
            | None => []
            end
        | None => []
        end in
      mkRiskAnalysis true tool (direct ++ sub)%list (Some (p_description pat))
  end.

(** [risks.some(r => r.risk === level)] *)
Definition someRisk (level : Severity) (risks : list Risk) : bool :=
  existsb (fun r => Severity_eqb (risk r) level) risks.

Definition getRiskLevel (risks : list Risk) : Severity :=
  match risks with
  | [] => low
  | _ =>
      if someRisk high risks then high
      else if someRisk medium risks then medium
      else low
  end.

(** ** suggestions.js: the safer-alternative catalog *)

Record Suggestion : Type := mkSuggestion {
  dangerous : string;
  safer : string;
  s_explanation : string
}.

(** The entries in declaration order, which is the order [Object.entries]
    yields them in (no key is an array index). *)
Definition suggestions : list (string * Suggestion) :=
  [ ("rm -rf", mkSuggestion "rm -rf <path>" "rm -ri <path>"
       "Interactive mode prompts before each deletion");
    ("rm --force --recursive", mkSuggestion "rm --force --recursive <path>" "rm -ri <path>"
       "Interactive mode prompts before each deletion");
    ("git push --force", mkSuggestion "git push --force" "git push --force-with-lease"
       "Only force-push if remote hasn't changed; safer for shared repos");
    ("git reset --hard", mkSuggestion "git reset --hard"
       "Create backup branch first: git branch backup && git reset --hard"
       "Preserves commit history in case you need to recover");
    ("docker system prune -a", mkSuggestion "docker system prune -a"
       "docker system prune (without -a) or docker image prune"
       "Without -a, only removes dangling images. Safer for production");
    ("chmod 777", mkSuggestion "chmod 777 <path>"
       "chmod 755 <path> (executables) or chmod 644 <path> (files)"
       "Restricts access to owner+group, not world-readable");
    ("curl | sh", mkSuggestion "curl <url> | sh"
       "curl <url> -o script.sh && cat script.sh && sh script.sh"
       "Inspect the script before executing it") ].

(** The [for ... of] loop of [getSuggestion] over a list of entries: return at
    the first entry whose key the command includes. *)
Fixpoint firstIncluded (entries : list (string * Suggestion)) (command : string)
  : option Suggestion :=
  match entries with
  | [] => None
  | (key, suggestion) :: rest =>
      if Js.includes command key then Some suggestion
      else firstIncluded rest command
  end.

Definition getSuggestion (command : string) : option Suggestion :=
  firstIncluded suggestions command.

Definition getContextualSuggestion (tool : string) (args : list string) : option string :=
  if (tool =? "npm") && Js.arrIncludes args "install" then
    Some "Consider using npm ci for CI/CD (installs exact versions from package-lock.json)"
  else if (tool =? "npm") && Js.arrIncludes args "uninstall" then
    Some "Backup your node_modules or use npm ci to restore from package-lock.json if needed"
  else if (tool =? "docker")
          && match nth_error args 0 with Some a => a =? "build" | None => false end
          && Js.arrIncludes args "--no-cache" then
    Some "Building without cache; this will take longer. Only use if you need fresh layers"
  else if (tool =? "git") && Js.arrIncludes args "--amend" then
    Some "Amending commits rewrites history. Only do this before pushing"
  else None.

(** ** analyzer.js: heuristics, explanations and the analysis *)

(** [args[i] === s] *)
Definition argIs (args : list string) (i : nat) (s : string) : bool :=
  match nth_error args i with
  | Some a => a =? s
  | None => false
  end.

Definition checkPipeRisks (command tool : string) (args : list string)
    (riskAnalysis : RiskAnalysis) : list Risk :=
  ((if ((tool =? "curl") || (tool =? "wget"))
      && (Js.includes command "| sh" || Js.includes command "| bash")
   then [ mkRisk None
            (Some (if Js.includes command "| sh" then "| sh" else "| bash"))
            high
            "Piping to shell executes downloaded content without inspection" ]
   else [])
  ++
  (if (tool =? "docker") && argIs args 0 "system" && argIs args 1 "prune"
      && Js.arrIncludes args "-a"
   then [ mkRisk (Some "-a") None high
            "Removes all unused images including tagged ones" ]
   else []))%list.

Definition handleGitExplanation (argStr : string) : string :=
  if Js.startsWith argStr "push" then
    if Js.includes argStr "--force"
    then "Force-push: overwrites remote history. Risky on shared repos."
    else "Uploads local commits to remote."
  else if Js.startsWith argStr "reset" then
    if Js.includes argStr "--hard"
    then "Hard reset: discards ALL uncommitted changes irreversibly."
    else "Resets to specified commit (soft/mixed mode)."
  else if Js.startsWith argStr "clean" then
    if Js.includes argStr "-f"
    then "Force-clean: deletes untracked files."
    else "Shows what would be deleted."
  else "Git operation.".

Definition handleDockerExplanation (argStr : string) : string :=
  if Js.startsWith argStr "system prune" then
    if Js.includes argStr "-a"
    then "Removes all unused images (including tagged). High-impact."
    else "Removes only dangling resources."
  else if Js.startsWith argStr "rmi" then
    "Permanently deletes image. Dependent containers will break."
  else if Js.startsWith argStr "rm" then
    "Deletes container(s). Data lost unless volume persists."
  else "Docker operation.".

Definition handleNpmExplanation (argStr : string) : string :=
  if Js.includes argStr "install" then
    "Installs npm packages. Can modify package-lock.json and node_modules."
  else if Js.includes argStr "uninstall" then
    "Removes npm packages from node_modules and package.json."
  else if Js.includes argStr "publish" then
    "Publishes package to npm registry. PERMANENT; cannot be undone easily."
  else "npm package manager operation.".

(** [argStr[0]]: the first character of the joined arguments, if any. *)
Definition firstChar (s : string) : option string :=
  match s with
  | EmptyString => None
  | String c _ => Some (String c EmptyString)
  end.

(** The [explanations] object literal, built afresh at every call. *)
Definition explanations (argStr : string) : list (string * string) :=
  [ ("rm", "Deletes files/directories. " ++
       (if Js.includes argStr "-rf"
        then "Recursive mode (-rf) deletes everything in path WITHOUT confirmation."
        else if Js.includes argStr "-r"
        then "Recursive mode (-r) deletes directories and contents."
        else "Deletes specified files."));
    ("mv", "Moves/renames files. If target exists, it will be overwritten.");
    ("cp", "Copies files. " ++
       (if Js.includes argStr "-r" then "Recursive mode (-r) copies directories." else EmptyString));
    ("git", "Git command: " ++
       match firstChar argStr with Some c => c | None => "unknown" end ++
       ". " ++ handleGitExplanation argStr);
    ("docker", "Docker command: " ++
       match firstChar argStr with Some c => c | None => "unknown" end ++
       ". " ++ handleDockerExplanation argStr);
    ("chmod", "Changes file permissions. " ++
       match firstChar argStr with
       | Some c => "Setting to " ++ c
       | None => "Permission change"
       end ++ ".");
    ("chown", "Changes file owner. " ++
       (if Js.includes argStr "-R"
        then "Recursive (-R) applies to all subdirectories." else EmptyString));
    ("dd", "Low-level disk copy utility. Extremely dangerous with wrong device parameters.");
    ("curl", "Fetches content from URL. " ++
       (if Js.includes argStr "|"
        then "Piping to shell (| sh/bash) executes downloaded content!"
        else "Shows content or downloads file."));
    ("wget", "Downloads files from URL. " ++
       (if Js.includes argStr "|"
        then "Piping to shell executes the downloaded file!"
        else "Saves to disk."));
    ("npm", handleNpmExplanation argStr);
    ("node", "Executes JavaScript. " ++
       (if Js.includes argStr "-e"
        then "Inline code execution with -e flag."
        else "Runs script file.")) ].

(** What [generateExplanation] returns: a string, or the member of
    [Object.prototype] that [explanations[tool]] found (a function or
    object, not a string). *)
Inductive Explanation : Type :=
| Text (s : string)
| PrototypeMember (key : string).

Definition generateExplanation (tool : string) (args : list string)
    (riskAnalysis : RiskAnalysis) : Explanation :=
  let argStr := Js.join " " args in
  let generic := Text ("Executes: " ++ tool ++ " " ++ argStr) in
  match Js.get (explanations argStr) tool with
  | Js.Own text => if Js.truthy text then Text text else generic
  | Js.Inherited key => PrototypeMember key
  | Js.Undefined => generic
  end.

Definition generateDryRun (tool : string) (args : list string)
    (riskAnalysis : RiskAnalysis) : string :=
  let argStr := Js.join " " args in
  if tool =? "rm" then
    let targets := Js.join ", " (filter (fun a => negb (Js.startsWith a "-")) args) in
    "Would delete: " ++ (if Js.truthy targets then targets else "[target path]")
      ++ (if Js.arrIncludes args "-rf" then " (recursively, with all contents)" else EmptyString)
      ++ " WITHOUT recovery."
  else if (tool =? "git") && argIs args 0 "push" && Js.arrIncludes args "--force" then
    "Would overwrite remote history with local commits. Team members with old clones would need to force-pull."
  else if (tool =? "git") && argIs args 0 "reset" && Js.arrIncludes args "--hard" then
    "Would discard all uncommitted changes. Files would revert to last commit state."
  else if (tool =? "docker") && argIs args 0 "system" && argIs args 1 "prune" then
    "Would remove Docker "
      ++ (if Js.arrIncludes args "-a" then "images (including used ones)" else "unused resources")
      ++ ". Freed space would be reclaimed."
  else if tool =? "chmod" then
    let perm := match nth_error args 0 with Some a => a | None => "undefined" end in
    let targets := Js.join ", " (tl args) in
    "Would set permissions to " ++ perm ++ " on "
      ++ (if Js.truthy targets then targets else "[target]") ++ "."
  else "Would execute: " ++ tool ++ " " ++ argStr.

(** The object [analyzeCommand] returns.  [directedSuggestion] is [None]
    when the object has no such property (the empty-command result) and
    [Some None] when the property holds [null]. *)
Record Analysis : Type := mkAnalysis {
  a_tool : string;
  a_command : string;
  riskLevel : Severity;
  risks : list Risk;
  a_suggestions : list string;
  explanation : Explanation;
  dryRun : string;
  directedSuggestion : option (option Suggestion)
}.

Definition analyzeCommand (command : string) : Analysis :=
  let (tool, args) := parseCommand command in
  if negb (Js.truthy tool) then
    mkAnalysis EmptyString command low [] [] (Text "Empty command.")
      "No operation would occur." None
  else
    let riskAnalysis := analyzeRisks tool args in
    let pipeRisks := checkPipeRisks command tool args riskAnalysis in
    let allRisks := (ra_risks riskAnalysis ++ pipeRisks)%list in
    let riskLevel := getRiskLevel allRisks in
    let directedSuggestion := getSuggestion command in
    let contextualSuggestion := getContextualSuggestion tool args in
    let suggestions :=
      (match directedSuggestion with Some d => [s_explanation d] | None => [] end
       ++ match contextualSuggestion with Some c => [c] | None => [] end)%list in
    let explanation := generateExplanation tool args riskAnalysis in
    let dryRun := generateDryRun tool args riskAnalysis in
    mkAnalysis tool command riskLevel allRisks suggestions explanation dryRun
      (Some directedSuggestion).

(** ** Notions the properties are stated with *)

(** The characters of a string. *)
Definition chars (s : string) : list ascii := list_ascii_of_string s.

(** [key] occurs in [s] as a substring. *)
Definition occursIn (key s : string) : Prop :=
  exists pre post, s = pre ++ key ++ post.

Module Aggregator.

(** The total order low < medium < high. *)
Definition rank (s : Severity) : nat :=
  match s with low => 0 | medium => 1 | high => 2 end.

Definition le (a b : Severity) : Prop := rank a <= rank b.

Definition max (a b : Severity) : Severity :=
  if (rank a <? rank b)%nat then b else a.

(** The maximum severity of a list of findings, [low] when there is none. *)
Definition maxSeverity (findings : list Risk) : Severity :=
  fold_right (fun f acc => max (risk f) acc) low findings.

End Aggregator.

(** The finding the matcher pushes for a flag-keyed entry. *)
Definition flagFinding (item : Risk) : Risk :=
  mkRisk (flag item) None (risk item) (reason item).

(** The finding the matcher pushes for a pattern-keyed entry. *)
Definition patternFinding (item : Risk) : Risk :=
  mkRisk None (pattern item) (risk item) (reason item).

(** A finding keyed, as a flag or as a pattern, by a pipe into a shell. *)
Definition pipeToShell (r : Risk) : Prop :=
  flag r = Some "| sh" \/ flag r = Some "| bash"
  \/ pattern r = Some "| sh" \/ pattern r = Some "| bash".

(** Enumerates the catalog entry [H : In (t, pat) riskPatterns]. *)
Ltac catalog_cases H :=
  unfold riskPatterns in H; simpl in H;
  repeat (destruct H as [H|H]; [inversion H; clear H; subst|]);
  [..|destruct H].

(** Enumerates the members [H : In item rs] of a concrete list. *)
Ltac member_cases H :=
  simpl in H;
  repeat (destruct H as [H|H]; [try (inversion H; clear H; subst)|]);
  [..|destruct H].

(** ** Tokens and separators *)

(** Only white space (the empty string included). *)
Definition blank (s : string) : bool := forallb Js.isSpace (chars s).

(** No white space at all. *)
Definition spaceless (s : string) : bool :=
  forallb (fun c => negb (Js.isSpace c)) (chars s).

(** A token: non-empty and free of white space. *)
Definition isToken (s : string) : bool := Js.truthy s && spaceless s.

(** A separator: a non-empty run of white space. *)
Definition isSeparator (s : string) : bool := Js.truthy s && blank s.

(** The raw command pipes into [shell], in the words of the specification: a
    pipe character, white space or none, then the name of the shell. *)
Definition pipesInto (shell command : string) : Prop :=
  exists pre ws post,
    blank ws = true /\ command = pre ++ "|" ++ ws ++ shell ++ post.

(** The text of separator-token pairs, in order. *)
Fixpoint spaced (rest : list (string * string)) : string :=
  match rest with
  | [] => EmptyString
  | (sep, tok) :: rest' => sep ++ tok ++ spaced rest'
  end.

(** ** bin/cmdguard.js: the confirmation prompt *)

Module Cli.

(** [String.prototype.toLowerCase] on one code unit below 256: the letters
    A-Z and the Latin-1 capitals (192-222 but the multiplication sign 215)
    move up by 32, everything else stays. *)
Definition lowerChar (c : ascii) : ascii :=
  let n := nat_of_ascii c in
  if (((65 <=? n)%nat && (n <=? 90)%nat)
      || ((192 <=? n)%nat && (n <=? 222)%nat && negb (n =? 215)%nat))%bool
  then ascii_of_nat (n + 32) else c.

Fixpoint toLowerCase (s : string) : string :=
  match s with
  | EmptyString => EmptyString
  | String c r => String (lowerChar c) (toLowerCase r)
  end.

(** The test of the [line] handler:
    [answer.toLowerCase() === 'y' || answer.toLowerCase() === 'yes']. *)
Definition confirms (answer : string) : bool :=
  (toLowerCase answer =? "y") || (toLowerCase answer =? "yes").

(** A promise of a boolean: pending ([None]) or settled.  It settles once;
    a later [resolve] changes nothing. *)
Definition Promise : Type := option bool.

Definition resolve (v : bool) (p : Promise) : Promise :=
  match p with
  | None => Some v
  | Some _ => p
  end.

(** The [close] handler: [resolve(false)]. *)
Definition onClose (p : Promise) : Promise := resolve false p.

(** The [line] handler: [rl.close()] comes first and emits [close] at once,
    which runs the [close] handler; [resolve] of the test comes after it. *)
Definition onLine (answer : string) (p : Promise) : Promise :=
  resolve (confirms answer) (onClose p).

(** The promise of [promptConfirm] after the first event of the interface:
    a line, or the end of the input ([None]). *)
Definition promptConfirm (line : option string) : Promise :=
  match line with
  | Some answer => onLine answer None
  | None => onClose None
  end.

End Cli.

(** ** The splitter and the catalog on sample commands *)

Example parse_rm : parseCommand "rm -rf /tmp/test" = mkCommand "rm" ["-rf"; "/tmp/test"].
Proof. reflexivity. Qed.

Example parse_blank : parseCommand "   " = mkCommand EmptyString [].
Proof. reflexivity. Qed.

Example parse_runs : parseCommand "  rm   -rf   /tmp " = parseCommand "rm -rf /tmp".
Proof. reflexivity. Qed.

Example split_edges : Js.split " a  b " = [EmptyString; "a"; "b"; EmptyString].
Proof. reflexivity. Qed.

(** The assertions of the repository's test suite, on the embedding. *)

Example test_high_risk_rm :
  riskLevel (analyzeCommand "rm -rf /tmp") = high
  /\ option_map flag (hd_error (risks (analyzeCommand "rm -rf /tmp"))) = Some (Some "-rf").
Proof. split; reflexivity. Qed.

Example test_low_risk_command :
  riskLevel (analyzeCommand "ls -la") = low /\ risks (analyzeCommand "ls -la") = [].
Proof. split; reflexivity. Qed.

Example test_docker_system_prune :
  risks (analyzeCommand "docker system prune -a") <> []
  /\ a_suggestions (analyzeCommand "docker system prune -a") <> [].
Proof. split; discriminate. Qed.

Example test_git_reset_hard :
  riskLevel (analyzeCommand "git reset --hard") = high
  /\ a_suggestions (analyzeCommand "git reset --hard") <> [].
Proof. split; [reflexivity | discriminate]. Qed.

Example test_chmod_777 :
  riskLevel (analyzeCommand "chmod 777 file.txt") = high
  /\ existsb (fun r => match flag r with Some f => f =? "777" | None => false end)
       (risks (analyzeCommand "chmod 777 file.txt")) = true.
Proof. split; reflexivity. Qed.

Example test_empty_command :
  riskLevel (analyzeCommand EmptyString) = low /\ risks (analyzeCommand EmptyString) = [].
Proof. split; reflexivity. Qed.

(** ** Facts about the string primitives *)

Section StringFacts.

Lemma prefix_iff (p s : string) :
  String.prefix p s = true <-> exists post, s = p ++ post.
Proof.
  revert s; induction p as [|a p IH]; intros s; simpl.
  - destruct s; split; intros; eauto.
  - destruct s as [|b s]; simpl.
    + split; [discriminate | intros [post H]; discriminate].
    + destruct (ascii_dec a b) as [->|Hne].
      * rewrite IH. split; intros [post H]; exists post.
        -- now rewrite H.
        -- now inversion H.
      * split; [discriminate | intros [post H]; simpl in H; congruence].
Qed.

Lemma includes_iff (s p : string) :
  Js.includes s p = true <-> occursIn p s.
Proof.
  unfold occursIn.
  induction s as [|c s IH].
  - cbn [Js.includes]. destruct (String.prefix p EmptyString) eqn:E.
    + split; [intros _ | reflexivity].
      apply prefix_iff in E. destruct E as [post E].
      exists EmptyString, post. exact E.
    + split; [discriminate|].
      intros (pre & post & H).
      destruct pre; [|discriminate]. simpl in H.
      assert (String.prefix p EmptyString = true) by (apply prefix_iff; eauto).
      congruence.
  - cbn [Js.includes]. destruct (String.prefix p (String c s)) eqn:E.
    + split; [intros _ | reflexivity].
      apply prefix_iff in E. destruct E as [post E].
      exists EmptyString, post. exact E.
    + rewrite IH. split.
      * intros (pre & post & H). exists (String c pre), post. simpl. now rewrite H.
      * intros (pre & post & H). destruct pre as [|c' pre].
        -- simpl in H.
           assert (String.prefix p (String c s) = true) by (apply prefix_iff; eauto).
           congruence.
        -- inversion H. eauto.
Qed.

Lemma arrIncludes_In (xs : list string) (x : string) :
  Js.arrIncludes xs x = true <-> In x xs.
Proof.
  unfold Js.arrIncludes. rewrite existsb_exists. split.
  - intros (y & Hy & E). apply String.eqb_eq in E. now subst.
  - intros H. exists x. split; [assumption | apply String.eqb_refl].
Qed.

Lemma truthy_iff (s : string) : Js.truthy s = true <-> s <> EmptyString.
Proof.
  unfold Js.truthy. rewrite negb_true_iff. apply String.eqb_neq.
Qed.

(** No token produced by the splitter contains a white-space character. *)
Lemma splitWs_tokens_spaceless (s : string) :
  forall inSep t, In t (Js.splitWs inSep s) ->
  forall c, In c (chars t) -> Js.isSpace c = false.
Proof.
  induction s as [|c0 s IH]; intros inSep t Ht c Hc.
  - simpl in Ht. destruct Ht as [<-|[]]. destruct Hc.
  - cbn [Js.splitWs] in Ht. destruct (Js.isSpace c0) eqn:Hsp.
    + destruct inSep.
      * eapply IH; eauto.
      * destruct Ht as [<-|Ht]; [destruct Hc | eapply IH; eauto].
    + destruct (Js.splitWs false s) as [|t0 ts] eqn:Hsplit.
      * destruct Ht as [<-|[]]. destruct Hc as [<-|[]]. exact Hsp.
      * destruct Ht as [<-|Ht].
        -- destruct Hc as [<-|Hc]; [exact Hsp|].
           apply (IH false t0); [rewrite Hsplit; now left | exact Hc].
        -- apply (IH false t); [rewrite Hsplit; now right | exact Hc].
Qed.

Lemma parseCommand_args_spaceless (command a : string) :
  In a (args (parseCommand command)) ->
  forall c, In c (chars a) -> Js.isSpace c = false.
Proof.
  unfold parseCommand.
  destruct (negb (Js.truthy (Js.trim command))); simpl; [intros []|].
  intros Ha. apply (splitWs_tokens_spaceless (Js.trim command) false).
  unfold Js.split in Ha.
  destruct (Js.splitWs false (Js.trim command)); [destruct Ha | now right].
Qed.

Lemma trimStart_blank (s : string) :
  forallb Js.isSpace (chars s) = true -> Js.trimStart s = EmptyString.
Proof.
  induction s as [|c s IH]; simpl; [reflexivity|].
  intros H. apply andb_true_iff in H. destruct H as [Hc Hs].
  rewrite Hc. now apply IH.
Qed.

Lemma parseCommand_blank (command : string) :
  forallb Js.isSpace (chars command) = true ->
  parseCommand command = mkCommand EmptyString [].
Proof.
  intros H. unfold parseCommand, Js.trim.
  now rewrite (trimStart_blank _ H).
Qed.

End StringFacts.

(** ** The severity aggregator *)

Module AggregatorFacts.
Import Aggregator.
Lemma rank_injective (a b : Severity) : rank a = rank b -> a = b.
Proof. destruct a, b; simpl; intros H; try reflexivity; discriminate. Qed.

Lemma maxSeverity_bounds (findings : list Risk) (f : Risk) :
  In f findings -> le (risk f) (maxSeverity findings).
Proof.
  unfold le. induction findings as [|g rest IH]; simpl; [intros []|].
  intros [->|H].
  - unfold max. destruct (rank (risk f) <? rank (maxSeverity rest))%nat eqn:E.
    + apply Nat.ltb_lt in E. lia.
    + lia.
  - specialize (IH H). unfold max.
    destruct (rank (risk g) <? rank (maxSeverity rest))%nat eqn:E.
    + exact IH.
    + apply Nat.ltb_ge in E. lia.
Qed.

Lemma maxSeverity_attained (findings : list Risk) :
  findings <> [] ->
  exists f, In f findings /\ risk f = maxSeverity findings.
Proof.
  induction findings as [|g rest IH]; [congruence|intros _].
  simpl. unfold max.
  destruct (rank (risk g) <? rank (maxSeverity rest))%nat eqn:E.
  - destruct rest as [|h rest'].
    + simpl in E. apply Nat.ltb_lt in E. lia.
    + destruct IH as (f & Hin & Hf); [congruence|].
      exists f. split; [now right | exact Hf].
  - exists g. split; [now left | reflexivity].
Qed.

(** The two [some] scans of [getRiskLevel], one element at a time. *)
Lemma scans_cons (f : Risk) (rest : list Risk) :
  (if someRisk high (f :: rest) then high
   else if someRisk medium (f :: rest) then medium else low)
  = max (risk f)
      (if someRisk high rest then high
       else if someRisk medium rest then medium else low).
Proof.
  unfold someRisk. simpl.
  destruct (risk f); simpl;
    destruct (existsb (fun r => Severity_eqb (risk r) high) rest);
    destruct (existsb (fun r => Severity_eqb (risk r) medium) rest);
    reflexivity.
Qed.

Lemma scans_max (findings : list Risk) :
  (if someRisk high findings then high
   else if someRisk medium findings then medium else low)
  = maxSeverity findings.
Proof.
  induction findings as [|f rest IH]; [reflexivity|].
  rewrite scans_cons, IH. reflexivity.
Qed.

Lemma getRiskLevel_max (findings : list Risk) :
  getRiskLevel findings = maxSeverity findings.
Proof.
  destruct findings as [|f rest]; [reflexivity|].
  unfold getRiskLevel. apply scans_max.
Qed.

Lemma high_dominates (findings : list Risk) (f : Risk) :
  In f findings -> risk f = high -> getRiskLevel findings = high.
Proof.
  intros Hin Hf. rewrite getRiskLevel_max.
  pose proof (maxSeverity_bounds findings f Hin) as Hle.
  unfold le in Hle. rewrite Hf in Hle. simpl in Hle.
  apply rank_injective.
  destruct (maxSeverity findings); simpl in *; lia.
Qed.

End AggregatorFacts.

(** ** The analysis, field by field *)

Section AnalysisFacts.

Lemma riskLevel_aggregates (command : string) :
  riskLevel (analyzeCommand command) = getRiskLevel (risks (analyzeCommand command)).
Proof.
  unfold analyzeCommand. destruct (parseCommand command) as [t a].
  destruct (negb (Js.truthy t)); reflexivity.
Qed.

Lemma risks_of_live_command (command : string) :
  Js.truthy (tool (parseCommand command)) = true ->
  risks (analyzeCommand command)
  = (ra_risks (analyzeRisks (tool (parseCommand command)) (args (parseCommand command)))
     ++ checkPipeRisks command (tool (parseCommand command)) (args (parseCommand command))
          (analyzeRisks (tool (parseCommand command)) (args (parseCommand command))))%list.
Proof.
  unfold analyzeCommand. destruct (parseCommand command) as [t a]. simpl.
  intros ->. reflexivity.
Qed.

Lemma risks_of_empty_command (command : string) :
  Js.truthy (tool (parseCommand command)) = false ->
  risks (analyzeCommand command) = [].
Proof.
  unfold analyzeCommand. destruct (parseCommand command) as [t a]. simpl.
  intros ->. reflexivity.
Qed.

End AnalysisFacts.

(** C1.  For every command, the risk level of the analysis is the maximum
    severity among its findings in the order low < medium < high: it bounds
    every finding, some finding attains it when there is one, and it is low
    when there is none. *)
Theorem riskLevel_is_max_severity :
  forall command : string,
    let a := analyzeCommand command in
    riskLevel a = Aggregator.maxSeverity (risks a)
    /\ (forall f, In f (risks a) -> Aggregator.le (risk f) (riskLevel a))
    /\ (risks a <> [] -> exists f, In f (risks a) /\ risk f = riskLevel a)
    /\ (risks a = [] -> riskLevel a = low).
Proof.
  intros command a.
  assert (E : riskLevel a = Aggregator.maxSeverity (risks a)).
  { unfold a. rewrite riskLevel_aggregates. apply AggregatorFacts.getRiskLevel_max. }
  split; [exact E|]. rewrite E. split; [|split].
  - intros f Hf. now apply AggregatorFacts.maxSeverity_bounds.
  - apply AggregatorFacts.maxSeverity_attained.
  - intros ->. reflexivity.
Qed.

(** C7.  A command made of white space only (the empty command included)
    yields the degenerate result: empty tool, low risk, no finding, no
    suggestion, explanation "Empty command." and dry-run "No operation would
    occur.". *)
Theorem blank_command_degenerate :
  forall command : string,
    forallb Js.isSpace (chars command) = true ->
    analyzeCommand command
    = mkAnalysis EmptyString command low [] [] (Text "Empty command.")
        "No operation would occur." None.
Proof.
  intros command H. unfold analyzeCommand.
  rewrite (parseCommand_blank command H). reflexivity.
Qed.

Lemma blank_command_degenerate_witness :
  forallb Js.isSpace (chars "   ") = true
  /\ analyzeCommand "   "
     = mkAnalysis EmptyString "   " low [] [] (Text "Empty command.")
         "No operation would occur." None.
Proof.
  split; [reflexivity | apply (blank_command_degenerate "   "); reflexivity].
Defined.

(** ** The matcher *)

Section MatcherFacts.

Lemma directRisks_In (args : list string) (argStr : string) (rs : list Risk) (r : Risk) :
  In r (flat_map (directRisks args argStr) rs) <->
  exists item, In item rs /\
    ((flagHit args item = true /\ r = flagFinding item)
     \/ (patternHit argStr item = true /\ r = patternFinding item)).
Proof.
  rewrite in_flat_map. unfold directRisks, flagFinding, patternFinding.
  split; intros (item & Hin & H); exists item; (split; [exact Hin|]).
  - apply in_app_or in H.
    destruct (flagHit args item), (patternHit argStr item); simpl in H;
      intuition (subst; auto).
  - apply in_or_app.
    destruct H as [[-> ->]|[-> ->]]; [left | right]; now left.
Qed.

Lemma subcommandRisks_In (args : list string) (rs : list Risk) (r : Risk) :
  In r (flat_map (subcommandRisks args) rs) <->
  exists item f, In item rs /\ flag item = Some f
    /\ Js.arrIncludes args f = true /\ r = flagFinding item.
Proof.
  rewrite in_flat_map. unfold subcommandRisks, flagFinding. split.
  - intros (item & Hin & H). destruct (flag item) as [f|] eqn:Ef; [|destruct H].
    destruct (Js.arrIncludes args f) eqn:Ea; [|destruct H].
    destruct H as [<-|[]]. exists item, f. rewrite Ef. auto.
  - intros (item & f & Hin & Ef & Ea & ->). exists item. split; [exact Hin|].
    rewrite Ef, Ea. now left.
Qed.

Lemma flagHit_In (args : list string) (item : Risk) (f : string) :
  flag item = Some f -> flagHit args item = true -> In f args.
Proof.
  unfold flagHit. intros ->. rewrite andb_true_iff.
  intros [_ H]. now apply arrIncludes_In.
Qed.

(** The findings of the matcher, whatever the catalog entry of the tool. *)
Lemma analyzeRisks_own (tool : string) (args : list string) (pat : Pattern) :
  Js.get riskPatterns tool = Js.Own pat ->
  ra_risks (analyzeRisks tool args)
  = ((match p_risks pat with
      | Some rs => flat_map (directRisks args (Js.join " " args)) rs
      | None => []
      end)
     ++
     (match p_subcommands pat with
      | Some subcommands =>
          match nth_error args 0 with
          | Some subCmd =>
              if Js.truthy subCmd then
                match Js.get subcommands subCmd with
                | Js.Own subPattern =>
                    match subRisks subPattern with
                    | Some rs => flat_map (subcommandRisks args) rs
                    | None => []
                    end
                | Js.Inherited _ => []
                | Js.Undefined => []
                end
              else []
          | None => []
          end
      | None => []
      end))%list.
Proof. unfold analyzeRisks. intros ->. reflexivity. Qed.

Lemma analyzeRisks_not_own (tool : string) (args : list string) :
  (forall pat, Js.get riskPatterns tool <> Js.Own pat) ->
  ra_risks (analyzeRisks tool args) = [].
Proof.
  unfold analyzeRisks. destruct (Js.get riskPatterns tool) as [pat| |]; intros H.
  - now destruct (H pat).
  - reflexivity.
  - reflexivity.
Qed.

(** A flag-keyed finding of the matcher carries one of the tokens. *)
Lemma analyzeRisks_flag_token (tool : string) (args : list string) (r : Risk) (f : string) :
  In r (ra_risks (analyzeRisks tool args)) -> flag r = Some f -> In f args.
Proof.
  destruct (Js.get riskPatterns tool) as [pat|k|] eqn:Eg.
  - rewrite (analyzeRisks_own _ _ _ Eg). intros Hin Hf.
    apply in_app_or in Hin. destruct Hin as [Hin|Hin].
    + destruct (p_risks pat) as [rs|]; [|destruct Hin].
      apply directRisks_In in Hin.
      destruct Hin as (item & _ & [[Hhit ->]|[_ ->]]); simpl in Hf; [|discriminate].
      eapply flagHit_In; eauto.
    + destruct (p_subcommands pat) as [subs|]; [|destruct Hin].
      destruct (nth_error args 0) as [subCmd|]; [|destruct Hin].
      destruct (Js.truthy subCmd); [|destruct Hin].
      destruct (Js.get subs subCmd) as [sp| |]; try destruct Hin.
      destruct (subRisks sp) as [rs|]; [|destruct Hin].
      apply subcommandRisks_In in Hin.
      destruct Hin as (item & f' & _ & Ef & Ea & ->). simpl in Hf.
      rewrite Ef in Hf. inversion Hf; subst. now apply arrIncludes_In.
  - rewrite analyzeRisks_not_own; [intros [] | intros pat; congruence].
  - rewrite analyzeRisks_not_own; [intros [] | intros pat; congruence].
Qed.

(** So does a flag-keyed finding of the heuristic layer. *)
Lemma checkPipeRisks_flag_token (command tool : string) (args : list string)
    (ra : RiskAnalysis) (r : Risk) (f : string) :
  In r (checkPipeRisks command tool args ra) -> flag r = Some f -> In f args.
Proof.
  unfold checkPipeRisks. intros Hin Hf. apply in_app_or in Hin.
  destruct Hin as [Hin|Hin].
  - destruct (_ && _); [|destruct Hin].
    destruct Hin as [<-|[]]. discriminate.
  - destruct (_ && _) eqn:E; [|destruct Hin].
    destruct Hin as [<-|[]]. simpl in Hf. inversion Hf; subst.
    apply andb_true_iff in E. destruct E as [_ E]. now apply arrIncludes_In.
Qed.

(** The heuristic layer only builds two shapes of finding. *)
Lemma checkPipeRisks_shapes (command tool : string) (args : list string)
    (ra : RiskAnalysis) (r : Risk) :
  In r (checkPipeRisks command tool args ra) ->
  (flag r = None
   /\ reason r = "Piping to shell executes downloaded content without inspection"
   /\ (tool = "curl" \/ tool = "wget"))
  \/ (r = mkRisk (Some "-a") None high "Removes all unused images including tagged ones"
      /\ tool = "docker").
Proof.
  unfold checkPipeRisks. intros Hin. apply in_app_or in Hin.
  destruct Hin as [Hin|Hin].
  - destruct ((tool =? "curl") || (tool =? "wget")) eqn:Et; cbn [andb] in Hin; [|destruct Hin].
    destruct (Js.includes command "| sh" || Js.includes command "| bash"); [|destruct Hin].
    destruct Hin as [<-|[]]. left. repeat split.
    apply orb_true_iff in Et. destruct Et as [E|E]; apply String.eqb_eq in E; auto.
  - destruct (tool =? "docker") eqn:Et; cbn [andb] in Hin; [|destruct Hin].
    destruct (_ && _); [|destruct Hin].
    destruct Hin as [<-|[]]. right. split; [reflexivity|].
    now apply String.eqb_eq.
Qed.

Lemma getOwn_In {A : Type} (obj : list (string * A)) (key : string) (v : A) :
  Js.getOwn obj key = Some v -> In (key, v) obj.
Proof.
  induction obj as [|[k w] rest IH]; simpl; [discriminate|].
  destruct (String.eqb_spec k key) as [->|_].
  - intros H. inversion H. now left.
  - intros H. right. now apply IH.
Qed.

Lemma get_Own_In {A : Type} (obj : list (string * A)) (key : string) (v : A) :
  Js.get obj key = Js.Own v -> In (key, v) obj.
Proof.
  unfold Js.get. destruct (Js.getOwn obj key) as [w|] eqn:E.
  - intros H. inversion H; subst. now apply getOwn_In.
  - destruct (Js.arrIncludes _ _); discriminate.
Qed.

End MatcherFacts.

Section CatalogFacts.

Lemma catalog_tool_truthy (t : string) (pat : Pattern) :
  Js.get riskPatterns t = Js.Own pat -> Js.truthy t = true.
Proof.
  intros H. apply get_Own_In in H. catalog_cases H; reflexivity.
Qed.

Lemma catalog_flags_truthy (t : string) (pat : Pattern) (rs : list Risk)
    (item : Risk) (f : string) :
  Js.get riskPatterns t = Js.Own pat -> p_risks pat = Some rs ->
  In item rs -> flag item = Some f -> Js.truthy f = true.
Proof.
  intros H Hrs Hin Hf. apply get_Own_In in H.
  catalog_cases H; simpl in Hrs; inversion Hrs; subst; clear Hrs;
    member_cases Hin; simpl in Hf; inversion Hf; reflexivity.
Qed.

Lemma catalog_subcommands_truthy (t : string) (pat : Pattern)
    (subs : list (string * SubPattern)) (k : string) (sp : SubPattern) :
  Js.get riskPatterns t = Js.Own pat -> p_subcommands pat = Some subs ->
  Js.get subs k = Js.Own sp -> Js.truthy k = true.
Proof.
  intros H Hs Hk. apply get_Own_In in H. apply get_Own_In in Hk.
  catalog_cases H; simpl in Hs; inversion Hs; subst; clear Hs;
    member_cases Hk; reflexivity.
Qed.

(** The substring patterns of the catalog. *)
Lemma catalog_patterns (t : string) (pat : Pattern) (rs : list Risk)
    (item : Risk) (p : string) :
  Js.get riskPatterns t = Js.Own pat -> p_risks pat = Some rs ->
  In item rs -> pattern item = Some p ->
  p = "if=/dev/" \/ p = "of=/dev/" \/ p = "sudo".
Proof.
  intros H Hrs Hin Hp. apply get_Own_In in H.
  catalog_cases H; simpl in Hrs; inversion Hrs; subst; clear Hrs;
    member_cases Hin; simpl in Hp; inversion Hp; auto.
Qed.

End CatalogFacts.

Section ResultFacts.

(** A flag-keyed finding of the analysis carries one of the tokens. *)
Lemma result_flag_token (command : string) (r : Risk) (f : string) :
  In r (risks (analyzeCommand command)) -> flag r = Some f ->
  In f (args (parseCommand command)).
Proof.
  destruct (Js.truthy (tool (parseCommand command))) eqn:Et.
  - rewrite (risks_of_live_command _ Et). intros Hin Hf.
    apply in_app_or in Hin. destruct Hin as [Hin|Hin].
    + eapply analyzeRisks_flag_token; eauto.
    + eapply checkPipeRisks_flag_token; eauto.
  - rewrite (risks_of_empty_command _ Et). intros [].
Qed.

(** A pattern-keyed finding of the matcher carries a catalog pattern. *)
Lemma analyzeRisks_pattern_catalog (tool : string) (args : list string) (r : Risk) (p : string) :
  In r (ra_risks (analyzeRisks tool args)) -> pattern r = Some p ->
  p = "if=/dev/" \/ p = "of=/dev/" \/ p = "sudo".
Proof.
  destruct (Js.get riskPatterns tool) as [pat|k|] eqn:Eg.
  - rewrite (analyzeRisks_own _ _ _ Eg). intros Hin Hp.
    apply in_app_or in Hin. destruct Hin as [Hin|Hin].
    + destruct (p_risks pat) as [rs|] eqn:Ers; [|destruct Hin].
      apply directRisks_In in Hin.
      destruct Hin as (item & Hitem & [[_ ->]|[_ ->]]); simpl in Hp; [discriminate|].
      eapply catalog_patterns; eauto.
    + destruct (p_subcommands pat) as [subs|]; [|destruct Hin].
      destruct (nth_error args 0) as [subCmd|]; [|destruct Hin].
      destruct (Js.truthy subCmd); [|destruct Hin].
      destruct (Js.get subs subCmd) as [sp| |]; try destruct Hin.
      destruct (subRisks sp) as [rs|]; [|destruct Hin].
      apply subcommandRisks_In in Hin.
      destruct Hin as (item & f' & _ & _ & _ & ->). discriminate.
  - rewrite analyzeRisks_not_own; [intros [] | intros pat; congruence].
  - rewrite analyzeRisks_not_own; [intros [] | intros pat; congruence].
Qed.

End ResultFacts.

(** C5.  Flag-keyed catalog entries match by exact token membership.  For a
    command whose tool has a catalog entry, each flag-keyed entry of the
    tool's own risk list, and each entry of the risk list of the subcommand
    the first token selects, yields its finding iff its flag is one of the
    tokens; every flag-keyed finding of any analysis carries one of the
    tokens; and "rm -rfx /tmp" yields no -rf finding. *)
Theorem flag_entries_match_exact_tokens :
  (forall (command : string) (pat : Pattern),
      let c := parseCommand command in
      let result := risks (analyzeCommand command) in
      Js.get riskPatterns (tool c) = Js.Own pat ->
      (forall rs item f,
          p_risks pat = Some rs -> In item rs -> flag item = Some f ->
          (In (flagFinding item) result <-> In f (args c)))
      /\ (forall subs k sp rs item f,
             p_subcommands pat = Some subs -> nth_error (args c) 0 = Some k ->
             Js.get subs k = Js.Own sp -> subRisks sp = Some rs ->
             In item rs -> flag item = Some f ->
             (In (flagFinding item) result <-> In f (args c))))
  /\ (forall command r f,
         In r (risks (analyzeCommand command)) -> flag r = Some f ->
         In f (args (parseCommand command)))
  /\ (forall r, In r (risks (analyzeCommand "rm -rfx /tmp")) -> flag r <> Some "-rf").
Proof.
  split; [|split].
  - intros command pat c result Hpat.
    assert (Hlive : Js.truthy (tool c) = true) by (eapply catalog_tool_truthy; eauto).
    assert (Hres : result
                   = (ra_risks (analyzeRisks (tool c) (args c))
                      ++ checkPipeRisks command (tool c) (args c)
                           (analyzeRisks (tool c) (args c)))%list)
      by (apply risks_of_live_command; exact Hlive).
    rewrite (analyzeRisks_own _ _ _ Hpat) in Hres.
    split.
    + intros rs item f Hrs Hitem Hf. split.
      * intros Hin. apply (result_flag_token command (flagFinding item)); [exact Hin|].
        exact Hf.
      * intros Hin. rewrite Hres, Hrs. apply in_or_app. left. apply in_or_app. left.
        apply directRisks_In. exists item. split; [exact Hitem|]. left.
        split; [|reflexivity]. unfold flagHit. rewrite Hf.
        rewrite (catalog_flags_truthy _ _ _ _ _ Hpat Hrs Hitem Hf).
        now apply arrIncludes_In.
    + intros subs k sp rs item f Hsubs Hk Hsp Hrs Hitem Hf. split.
      * intros Hin. apply (result_flag_token command (flagFinding item)); [exact Hin|].
        exact Hf.
      * intros Hin. rewrite Hres, Hsubs, Hk.
        rewrite (catalog_subcommands_truthy _ _ _ _ _ Hpat Hsubs Hsp), Hsp, Hrs.
        apply in_or_app. left. apply in_or_app. right.
        apply subcommandRisks_In. exists item, f.
        repeat split; try assumption. now apply arrIncludes_In.
  - exact result_flag_token.
  - intros r Hin Hf.
    pose proof (result_flag_token _ _ _ Hin Hf) as H.
    vm_compute in H. intuition discriminate.
Qed.

Lemma flag_entries_match_exact_tokens_witness :
  Js.get riskPatterns (tool (parseCommand "rm -rf /tmp"))
  = Js.Own (mkPattern "rm"
      (Some [ byFlag "-rf" high "Recursively deletes without confirmation";
              byFlag "-f" high "Forces deletion, ignores permissions";
              byFlag "-r" medium "Recursive deletion; combine with -f for high risk" ])
      None "File deletion command")
  /\ (In (flagFinding (byFlag "-rf" high "Recursively deletes without confirmation"))
        (risks (analyzeCommand "rm -rf /tmp"))
      <-> In "-rf" (args (parseCommand "rm -rf /tmp"))).
Proof.
  split; [reflexivity|].
  apply (proj1 (proj1 flag_entries_match_exact_tokens "rm -rf /tmp" _ eq_refl)
           _ (byFlag "-rf" high "Recursively deletes without confirmation") "-rf" eq_refl).
  - left. reflexivity.
  - reflexivity.
Defined.

(** C10.  No token of a parsed command contains white space, so a
    flag-keyed entry whose flag contains a space (the "| sh" and "| bash"
    entries of curl and wget) never matches and the matcher finds nothing
    for curl and wget; the matcher yields no pipe-to-shell finding, and
    every such finding of an analysis comes from the heuristic layer. *)
Theorem spaced_flags_never_match :
  forall command : string,
    let c := parseCommand command in
    let matched := ra_risks (analyzeRisks (tool c) (args c)) in
    (forall a ch, In a (args c) -> In ch (chars a) -> Js.isSpace ch = false)
    /\ (forall item f,
           flag item = Some f -> In " "%char (chars f) ->
           flagHit (args c) item = false /\ ~ In (flagFinding item) matched)
    /\ (tool c = "curl" \/ tool c = "wget" -> matched = [])
    /\ (forall r, In r matched -> ~ pipeToShell r)
    /\ (forall r,
           In r (risks (analyzeCommand command)) -> pipeToShell r ->
           In r (checkPipeRisks command (tool c) (args c) (analyzeRisks (tool c) (args c)))).
Proof.
  intros command c matched.
  assert (Htok : forall a ch, In a (args c) -> In ch (chars a) -> Js.isSpace ch = false)
    by (intros a ch Ha Hch; eapply parseCommand_args_spaceless; eauto).
  assert (Hspaced : forall f, In " "%char (chars f) -> ~ In f (args c)).
  { intros f Hsp Hin. specialize (Htok f " "%char Hin Hsp). discriminate. }
  assert (Hnone : forall r, In r matched -> ~ pipeToShell r).
  { intros r Hin [H|[H|[H|H]]].
    - apply (Hspaced "| sh"); [simpl; auto|].
      eapply analyzeRisks_flag_token; eauto.
    - apply (Hspaced "| bash"); [simpl; auto|].
      eapply analyzeRisks_flag_token; eauto.
    - destruct (analyzeRisks_pattern_catalog _ _ _ _ Hin H) as [E|[E|E]]; discriminate.
    - destruct (analyzeRisks_pattern_catalog _ _ _ _ Hin H) as [E|[E|E]]; discriminate. }
  split; [exact Htok|]. split; [|split; [|split; [exact Hnone|]]].
  - intros item f Hf Hsp. split.
    + destruct (flagHit (args c) item) eqn:E; [|reflexivity].
      destruct (Hspaced f Hsp). eapply flagHit_In; eauto.
    + intros Hin. apply (Hspaced f Hsp).
      apply (analyzeRisks_flag_token (tool c) (args c) (flagFinding item)); assumption.
  - intros Htool.
    destruct matched as [|r rest] eqn:Em; [reflexivity|].
    assert (Hin : In r matched) by (rewrite Em; now left).
    exfalso. unfold matched in Hin.
    destruct Htool as [E|E]; rewrite E in Hin;
      [ rewrite (analyzeRisks_own "curl" _ _ eq_refl) in Hin
      | rewrite (analyzeRisks_own "wget" _ _ eq_refl) in Hin ];
      cbn [p_risks p_subcommands] in Hin; rewrite app_nil_r in Hin;
      apply directRisks_In in Hin;
      destruct Hin as (item & Hitem & [[Hhit _]|[Hhit _]]);
      member_cases Hitem;
      try (simpl in Hhit; discriminate);
      (eapply Hspaced; [|eapply flagHit_In; [|exact Hhit]; reflexivity]);
      simpl; auto.
  - intros r Hin Hpipe.
    destruct (Js.truthy (tool c)) eqn:Et.
    + unfold c in Et. rewrite (risks_of_live_command _ Et) in Hin.
      apply in_app_or in Hin. destruct Hin as [Hin|Hin]; [|exact Hin].
      destruct (Hnone r Hin Hpipe).
    + unfold c in Et. rewrite (risks_of_empty_command _ Et) in Hin. destruct Hin.
Qed.

(** C4, as the code has it.  When the tool is curl or wget and the raw
    command contains the text "| sh" or "| bash" (the pipe, one space, the
    name), and when the command is docker system prune with a -a token,
    the heuristic layer yields a high finding whatever the matcher found;
    the findings of the analysis are the matcher's followed by the
    heuristic ones, and the risk level is high. *)
Theorem heuristics_append_high_finding :
  forall command : string,
    let c := parseCommand command in
    ((tool c = "curl" \/ tool c = "wget")
     /\ (occursIn "| sh" command \/ occursIn "| bash" command))
    \/ (tool c = "docker" /\ nth_error (args c) 0 = Some "system"
        /\ nth_error (args c) 1 = Some "prune" /\ In "-a" (args c)) ->
    exists h : Risk,
      risk h = high
      /\ (forall ra, In h (checkPipeRisks command (tool c) (args c) ra))
      /\ risks (analyzeCommand command)
         = (ra_risks (analyzeRisks (tool c) (args c))
            ++ checkPipeRisks command (tool c) (args c)
                 (analyzeRisks (tool c) (args c)))%list
      /\ riskLevel (analyzeCommand command) = high.
Proof.
  intros command c H.
  assert (Hlive : Js.truthy (tool c) = true).
  { destruct H as [[[E|E] _]|[E _]]; rewrite E; reflexivity. }
  assert (Hh : exists h, risk h = high
                 /\ forall ra, In h (checkPipeRisks command (tool c) (args c) ra)).
  { destruct H as [[Htool Hpipe]|(Htool & H0 & H1 & Ha)].
    - exists (mkRisk None
                (Some (if Js.includes command "| sh" then "| sh" else "| bash"))
                high "Piping to shell executes downloaded content without inspection").
      split; [reflexivity|]. intros ra. unfold checkPipeRisks.
      apply in_or_app. left.
      assert (Et : (tool c =? "curl") || (tool c =? "wget") = true)
        by (destruct Htool as [E|E]; rewrite E; reflexivity).
      assert (Ep : Js.includes command "| sh" || Js.includes command "| bash" = true).
      { apply orb_true_iff.
        destruct Hpipe as [Hp|Hp]; [left | right]; now apply includes_iff. }
      rewrite Et, Ep. now left.
    - exists (mkRisk (Some "-a") None high
                "Removes all unused images including tagged ones").
      split; [reflexivity|]. intros ra. unfold checkPipeRisks, argIs.
      apply in_or_app. right.
      apply arrIncludes_In in Ha. rewrite Htool, H0, H1, Ha. now left. }
  destruct Hh as (h & Hrisk & Hin). exists h.
  split; [exact Hrisk|]. split; [exact Hin|].
  pose proof (risks_of_live_command command Hlive) as Hres. fold c in Hres.
  split; [exact Hres|].
  rewrite riskLevel_aggregates.
  apply (AggregatorFacts.high_dominates _ h); [|exact Hrisk].
  rewrite Hres. apply in_or_app. right. apply Hin.
Qed.

Lemma heuristics_append_high_finding_witness :
  ((tool (parseCommand "curl https://example.com | sh") = "curl"
    \/ tool (parseCommand "curl https://example.com | sh") = "wget")
   /\ (occursIn "| sh" "curl https://example.com | sh"
       \/ occursIn "| bash" "curl https://example.com | sh"))
  /\ riskLevel (analyzeCommand "curl https://example.com | sh") = high.
Proof.
  assert (H : (tool (parseCommand "curl https://example.com | sh") = "curl"
               \/ tool (parseCommand "curl https://example.com | sh") = "wget")
              /\ (occursIn "| sh" "curl https://example.com | sh"
                  \/ occursIn "| bash" "curl https://example.com | sh")).
  { split; left; [reflexivity|].
    exists "curl https://example.com ", EmptyString. reflexivity. }
  split; [exact H|].
  destruct (heuristics_append_high_finding "curl https://example.com | sh" (or_introl H))
    as (h & _ & _ & _ & Hlevel).
  exact Hlevel.
Defined.

(** C4 as stated fails: "curl https://example.com |sh" is a curl command
    that pipes into sh, with no space after the pipe; the heuristic does not
    see it, and the analysis has no finding and risk level low. *)
Lemma pipe_without_space_unflagged :
  tool (parseCommand "curl https://example.com |sh") = "curl"
  /\ pipesInto "sh" "curl https://example.com |sh"
  /\ risks (analyzeCommand "curl https://example.com |sh") = []
  /\ riskLevel (analyzeCommand "curl https://example.com |sh") = low
  /\ riskLevel (analyzeCommand "curl https://example.com |sh") <> high.
Proof.
  split; [reflexivity|]. split.
  - exists "curl https://example.com ", EmptyString, EmptyString.
    split; reflexivity.
  - split; [reflexivity|]. split; [reflexivity|]. vm_compute. discriminate.
Qed.

Section SuggestionFacts.

(** The loop returns the first entry, in list order, whose key occurs in the
    command, and nothing when no key occurs. *)
Lemma firstIncluded_first (entries : list (string * Suggestion)) (command : string) :
  match firstIncluded entries command with
  | Some r =>
      exists i key,
        nth_error entries i = Some (key, r) /\ occursIn key command
        /\ forall j key' r', j < i -> nth_error entries j = Some (key', r') ->
                             ~ occursIn key' command
  | None => forall key r, In (key, r) entries -> ~ occursIn key command
  end.
Proof.
  induction entries as [|[k s] rest IH]; simpl.
  - intros key r [].
  - destruct (Js.includes command k) eqn:E.
    + exists 0, k. split; [reflexivity|]. split; [now apply includes_iff|].
      intros j key' r' Hj. lia.
    + assert (Hk : ~ occursIn k command).
      { intros H. apply includes_iff in H. congruence. }
      destruct (firstIncluded rest command) as [r|].
      * destruct IH as (i & key & Hi & Hocc & Hfirst).
        exists (S i), key. split; [exact Hi|]. split; [exact Hocc|].
        intros [|j] key' r' Hj Hnth; simpl in Hnth.
        -- inversion Hnth; subst. exact Hk.
        -- apply (Hfirst j key' r'); [lia | exact Hnth].
      * intros key r [H|H]; [inversion H; subst; exact Hk | eapply IH; eauto].
Qed.

End SuggestionFacts.

(** C9.  The directed suggestion of a command is the rule of the first
    entry, in declaration order, whose trigger occurs in the raw command as a
    substring, and there is none exactly when no trigger occurs; so of two
    rules whose triggers both occur, the later one is never returned in place
    of the earlier. *)
Theorem directed_suggestion_first_match :
  forall command : string,
    (forall r,
        getSuggestion command = Some r <->
        exists i key,
          nth_error suggestions i = Some (key, r) /\ occursIn key command
          /\ forall j key' r', j < i -> nth_error suggestions j = Some (key', r') ->
                               ~ occursIn key' command)
    /\ (getSuggestion command = None <->
        forall key r, In (key, r) suggestions -> ~ occursIn key command)
    /\ getSuggestion "git push --force; rm -rf build"
       = Some (mkSuggestion "rm -rf <path>" "rm -ri <path>"
                 "Interactive mode prompts before each deletion").
Proof.
  intros command. unfold getSuggestion.
  pose proof (firstIncluded_first suggestions command) as H.
  split; [|split].
  - intros r. split.
    + intros E. rewrite E in H. exact H.
    + intros (i & key & Hi & Hocc & Hfirst).
      destruct (firstIncluded suggestions command) as [r0|].
      * destruct H as (i0 & key0 & Hi0 & Hocc0 & Hfirst0).
        destruct (Nat.lt_trichotomy i i0) as [Hlt|[->|Hgt]].
        -- destruct (Hfirst0 i key r Hlt Hi Hocc).
        -- congruence.
        -- destruct (Hfirst i0 key0 r0 Hgt Hi0 Hocc0).
      * apply nth_error_In in Hi. destruct (H key r Hi Hocc).
  - split.
    + intros E. rewrite E in H. exact H.
    + intros Hnone. destruct (firstIncluded suggestions command) as [r0|]; [|reflexivity].
      destruct H as (i0 & key0 & Hi0 & Hocc0 & _).
      apply nth_error_In in Hi0. destruct (Hnone key0 r0 Hi0 Hocc0).
  - reflexivity.
Qed.

(** C6, as the code has it.  The analysis of "git push --force" has risk
    level high; its directed suggestion is the rule whose safer form is
    "git push --force-with-lease"; its suggestions list holds that rule's
    explanation only, in which "--force-with-lease" does not occur. *)
Theorem git_push_force_analysis :
  let a := analyzeCommand "git push --force" in
  riskLevel a = high
  /\ (exists rule,
         directedSuggestion a = Some (Some rule)
         /\ safer rule = "git push --force-with-lease"
         /\ a_suggestions a = [s_explanation rule])
  /\ a_suggestions a
     = ["Only force-push if remote hasn't changed; safer for shared repos"].
Proof.
  split; [reflexivity|]. split; [|reflexivity].
  eexists. split; [reflexivity|]. split; reflexivity.
Qed.

(** C6 as stated fails: no element of the suggestions list of the analysis of
    "git push --force" contains "--force-with-lease". *)
Lemma git_push_force_suggestions_omit_lease :
  ~ (riskLevel (analyzeCommand "git push --force") = high
     /\ exists s, In s (a_suggestions (analyzeCommand "git push --force"))
                  /\ occursIn "--force-with-lease" s).
Proof.
  intros [_ (s & Hin & Hocc)].
  apply includes_iff in Hocc.
  vm_compute in Hin. destruct Hin as [<-|[]].
  vm_compute in Hocc. discriminate.
Qed.

Section FallbackFacts.

Lemma getOwn_None_iff {A : Type} (obj : list (string * A)) (key : string) :
  Js.getOwn obj key = None <-> ~ In key (map fst obj).
Proof.
  induction obj as [|[k v] rest IH]; simpl.
  - split; [intros _ [] | reflexivity].
  - destruct (String.eqb_spec k key) as [->|Hne].
    + split; [discriminate | intros H; destruct H; now left].
    + rewrite IH. split.
      * intros H [E|Hin]; [contradiction | now apply H].
      * intros H Hin. apply H. now right.
Qed.

Lemma get_Undefined {A : Type} (obj : list (string * A)) (key : string) :
  ~ In key (map fst obj) -> ~ In key Js.objectPrototypeKeys ->
  Js.get obj key = Js.Undefined.
Proof.
  intros Hown Hproto. unfold Js.get.
  apply getOwn_None_iff in Hown. rewrite Hown.
  destruct (Js.arrIncludes Js.objectPrototypeKeys key) eqn:E; [|reflexivity].
  apply arrIncludes_In in E. contradiction.
Qed.

Lemma not_key (t k : string) (keys : list string) :
  ~ In t keys -> In k keys -> (t =? k) = false.
Proof.
  intros Hnot Hin. apply String.eqb_neq. intros ->. contradiction.
Qed.

(** The tools that have an explanation template. *)
Lemma explanations_keys (argStr : string) :
  map fst (explanations argStr)
  = [ "rm"; "mv"; "cp"; "git"; "docker"; "chmod"; "chown"; "dd"; "curl"; "wget";
      "npm"; "node" ].
Proof. reflexivity. Qed.

(** Off the names of [Object.prototype], the explanation is a string. *)
Lemma generateExplanation_text (tool : string) (args : list string) (ra : RiskAnalysis) :
  ~ In tool Js.objectPrototypeKeys ->
  exists s, generateExplanation tool args ra = Text s.
Proof.
  intros Hproto. unfold generateExplanation, Js.get.
  destruct (Js.getOwn (explanations (Js.join " " args)) tool) as [text|].
  - destruct (Js.truthy text); eauto.
  - destruct (Js.arrIncludes Js.objectPrototypeKeys tool) eqn:E; eauto.
    apply arrIncludes_In in E. contradiction.
Qed.

End FallbackFacts.

(** C8, as the code has it.  For a non-empty command whose tool is neither a
    key of the pattern catalog nor a name inherited from [Object.prototype],
    the matcher returns found = false and no finding, the analysis has no
    finding, and the dry-run is "Would execute: {tool} {args}"; the
    explanation is "Executes: {tool} {args}" when the tool is none of mv, cp,
    npm and node, which have a template of their own. *)
Theorem unknown_tool_fallback :
  forall command : string,
    let c := parseCommand command in
    let a := analyzeCommand command in
    tool c <> EmptyString ->
    ~ In (tool c) (map fst riskPatterns) ->
    ~ In (tool c) Js.objectPrototypeKeys ->
    found (analyzeRisks (tool c) (args c)) = false
    /\ ra_risks (analyzeRisks (tool c) (args c)) = []
    /\ risks a = []
    /\ dryRun a = "Would execute: " ++ tool c ++ " " ++ Js.join " " (args c)
    /\ (~ In (tool c) ["mv"; "cp"; "npm"; "node"] ->
        explanation a = Text ("Executes: " ++ tool c ++ " " ++ Js.join " " (args c))).
Proof.
  intros command c a Hlive Hcat Hproto.
  apply truthy_iff in Hlive.
  assert (Hra : analyzeRisks (tool c) (args c) = mkRiskAnalysis false (tool c) [] None).
  { unfold analyzeRisks. now rewrite (get_Undefined _ _ Hcat Hproto). }
  assert (Hkey : forall k, In k (map fst riskPatterns) -> (tool c =? k) = false)
    by (intros k; now apply not_key).
  assert (Erm : (tool c =? "rm") = false) by (apply Hkey; simpl; tauto).
  assert (Egit : (tool c =? "git") = false) by (apply Hkey; simpl; tauto).
  assert (Edocker : (tool c =? "docker") = false) by (apply Hkey; simpl; tauto).
  assert (Echmod : (tool c =? "chmod") = false) by (apply Hkey; simpl; tauto).
  assert (Ecurl : (tool c =? "curl") = false) by (apply Hkey; simpl; tauto).
  assert (Ewget : (tool c =? "wget") = false) by (apply Hkey; simpl; tauto).
  assert (Hpipe : forall ra, checkPipeRisks command (tool c) (args c) ra = []).
  { intros ra. unfold checkPipeRisks. rewrite Ecurl, Ewget, Edocker. reflexivity. }
  assert (Ha : a = mkAnalysis (tool c) command
                     (getRiskLevel
                        (ra_risks (analyzeRisks (tool c) (args c))
                         ++ checkPipeRisks command (tool c) (args c)
                              (analyzeRisks (tool c) (args c)))%list)
                     (ra_risks (analyzeRisks (tool c) (args c))
                      ++ checkPipeRisks command (tool c) (args c)
                           (analyzeRisks (tool c) (args c)))%list
                     (match getSuggestion command with
                      | Some d => [s_explanation d] | None => [] end
                      ++ match getContextualSuggestion (tool c) (args c) with
                         | Some s => [s] | None => [] end)%list
                     (generateExplanation (tool c) (args c)
                        (analyzeRisks (tool c) (args c)))
                     (generateDryRun (tool c) (args c)
                        (analyzeRisks (tool c) (args c)))
                     (Some (getSuggestion command))).
  { unfold a, c, analyzeCommand in *.
    destruct (parseCommand command) as [t xs]. simpl in *.
    rewrite Hlive. reflexivity. }
  rewrite Ha, Hra. simpl. rewrite Hpipe.
  repeat split.
  - unfold generateDryRun. rewrite Erm, Egit, Edocker, Echmod. reflexivity.
  - intros Hother. unfold generateExplanation.
    rewrite get_Undefined; [reflexivity | | exact Hproto].
    rewrite explanations_keys. simpl in Hcat, Hother |- *. tauto.
Qed.

Lemma unknown_tool_fallback_witness :
  tool (parseCommand "ls -la") <> EmptyString
  /\ dryRun (analyzeCommand "ls -la") = "Would execute: ls -la"
  /\ explanation (analyzeCommand "ls -la") = Text "Executes: ls -la".
Proof.
  assert (Hlive : tool (parseCommand "ls -la") <> EmptyString) by discriminate.
  assert (Hcat : ~ In (tool (parseCommand "ls -la")) (map fst riskPatterns)).
  { simpl. intuition discriminate. }
  assert (Hproto : ~ In (tool (parseCommand "ls -la")) Js.objectPrototypeKeys).
  { simpl. intuition discriminate. }
  destruct (unknown_tool_fallback "ls -la" Hlive Hcat Hproto)
    as (_ & _ & _ & Hdry & Hexp).
  split; [exact Hlive|]. split; [exact Hdry|].
  apply Hexp. simpl. intuition discriminate.
Defined.

(** C8 as stated fails: mv is absent from the pattern catalog, and the
    explanation of "mv a b" is mv's own template, not the generic one. *)
Lemma mv_explanation_not_generic :
  let c := parseCommand "mv a b" in
  ~ In (tool c) (map fst riskPatterns)
  /\ found (analyzeRisks (tool c) (args c)) = false
  /\ explanation (analyzeCommand "mv a b")
     = Text "Moves/renames files. If target exists, it will be overwritten."
  /\ explanation (analyzeCommand "mv a b")
     <> Text ("Executes: " ++ tool c ++ " " ++ Js.join " " (args c)).
Proof.
  split; [simpl; intuition discriminate|].
  split; [reflexivity|]. split; [reflexivity|].
  vm_compute. discriminate.
Qed.

(** C2, at the failing input.  The tool "constructor" names a member of
    [Object.prototype]: the matcher reports found = true for it, and the
    explanation of the analysis is that member, not a string. *)
Theorem explanation_of_constructor_not_text :
  let a := analyzeCommand "constructor" in
  explanation a = PrototypeMember "constructor"
  /\ (forall s, explanation a <> Text s)
  /\ found (analyzeRisks "constructor" []) = true
  /\ ~ In "constructor" (map fst riskPatterns).
Proof.
  split; [reflexivity|]. split; [intros s; vm_compute; discriminate|].
  split; [reflexivity|]. simpl. intuition discriminate.
Qed.

(** C3, at the failing input.  Under docker, the member "system" of the
    subcommands object has no risk list of its own, so the matcher finds
    nothing for any docker system command; "docker system prune --volumes"
    has no finding and risk level low, although the catalog declares a high
    --volumes entry under system prune. *)
Theorem docker_system_prune_volumes_unmatched :
  (forall rest, ra_risks (analyzeRisks "docker" ("system" :: rest)) = [])
  /\ risks (analyzeCommand "docker system prune --volumes") = []
  /\ riskLevel (analyzeCommand "docker system prune --volumes") = low
  /\ Js.get riskPatterns "docker"
     = Js.Own (mkPattern "docker" None
         (Some [ ("system", SubNested
                    [ ("prune", SubRisks
                         [ byFlag "-a" high "Removes all unused images (may be intentional)";
                           byFlag "--volumes" high "Deletes unused volumes with potential data" ]
                         None (Some "Removes Docker resources; can be costly if accidental")) ]);
                 ("rmi", SubRisks
                    [ byFlag "-f" high "Force removes image, breaks dependent containers" ]
                    None (Some "Permanently deletes Docker images"));
                 ("rm", SubRisks
                    [ byFlag "-f" medium "Force removes container; data loss possible" ]
                    None (Some "Deletes Docker containers")) ])
         "Docker container/image operations").
Proof.
  split; [intros rest; reflexivity|].
  split; [reflexivity|]. split; reflexivity.
Qed.

(** ** More on the splitter *)

Section SplitterFacts.

Lemma append_nil_r (s : string) : s ++ EmptyString = s.
Proof. induction s as [|c s IH]; simpl; [reflexivity | now rewrite IH]. Qed.

Lemma append_assoc (a b c : string) : (a ++ b) ++ c = a ++ b ++ c.
Proof. induction a as [|x a IH]; simpl; [reflexivity | now rewrite IH]. Qed.

Lemma spaceless_iff (s : string) :
  spaceless s = true <-> forall c, In c (chars s) -> Js.isSpace c = false.
Proof.
  unfold spaceless. rewrite forallb_forall. split; intros H c Hc.
  - apply negb_true_iff. now apply H.
  - apply negb_true_iff. now apply H.
Qed.

Lemma isToken_iff (s : string) :
  isToken s = true <-> s <> EmptyString /\ spaceless s = true.
Proof. unfold isToken. rewrite andb_true_iff, truthy_iff. tauto. Qed.

Lemma isSeparator_iff (s : string) :
  isSeparator s = true <-> s <> EmptyString /\ blank s = true.
Proof. unfold isSeparator. rewrite andb_true_iff, truthy_iff. tauto. Qed.

Lemma splitWs_nonnil (inSep : bool) (s : string) : Js.splitWs inSep s <> [].
Proof.
  revert inSep. induction s as [|c s IH]; intros inSep; simpl; [discriminate|].
  destruct (Js.isSpace c).
  - destruct inSep; [apply IH | discriminate].
  - destruct (Js.splitWs false s); discriminate.
Qed.

(** A token in front of a string joins the first piece of that string. *)
Lemma splitWs_token_prefix (t s : string) (inSep : bool) :
  t <> EmptyString -> spaceless t = true ->
  exists u us, Js.splitWs false s = u :: us
               /\ Js.splitWs inSep (t ++ s) = (t ++ u) :: us.
Proof.
  revert inSep. induction t as [|c t IH]; intros inSep Hne Hsp; [congruence|].
  unfold spaceless in Hsp. simpl in Hsp. apply andb_true_iff in Hsp.
  destruct Hsp as [Hc Ht]. apply negb_true_iff in Hc.
  destruct t as [|c' t'].
  - simpl. rewrite Hc.
    destruct (Js.splitWs false s) as [|u us] eqn:E.
    + now destruct (splitWs_nonnil false s).
    + exists u, us. auto.
  - destruct (IH false) as (u & us & Hs & Hts); [discriminate | exact Ht |].
    exists u, us. split; [exact Hs|].
    change (String c (String c' t') ++ s) with (String c (String c' t' ++ s)).
    cbn [Js.splitWs]. rewrite Hc, Hts. reflexivity.
Qed.

Lemma splitWs_blank_prefix (sep s : string) :
  blank sep = true -> Js.splitWs true (sep ++ s) = Js.splitWs true s.
Proof.
  induction sep as [|c sep IH]; intros H; [reflexivity|].
  unfold blank in H. simpl in H. apply andb_true_iff in H. destruct H as [Hc Hs].
  simpl. rewrite Hc. now apply IH.
Qed.

Lemma splitWs_separator_prefix (sep s : string) :
  isSeparator sep = true ->
  Js.splitWs false (sep ++ s) = EmptyString :: Js.splitWs true s.
Proof.
  intros H. apply isSeparator_iff in H. destruct H as [Hne Hb].
  destruct sep as [|c sep]; [congruence|].
  unfold blank in Hb. simpl in Hb. apply andb_true_iff in Hb. destruct Hb as [Hc Hs].
  simpl. rewrite Hc. f_equal. now apply splitWs_blank_prefix.
Qed.

(** In front of a solid character, the separator state does not matter. *)
Lemma splitWs_solid_start (c : ascii) (r : string) (inSep : bool) :
  Js.isSpace c = false ->
  Js.splitWs inSep (String c r) = Js.splitWs false (String c r).
Proof. intros H. simpl. now rewrite H. Qed.

Lemma token_head (t : string) :
  isToken t = true -> exists c r, t = String c r /\ Js.isSpace c = false.
Proof.
  intros H. apply isToken_iff in H. destruct H as [Hne Hsp].
  destruct t as [|c r]; [congruence|]. exists c, r. split; [reflexivity|].
  unfold spaceless in Hsp. simpl in Hsp. apply andb_true_iff in Hsp.
  now apply negb_true_iff.
Qed.

(** Splitting a token followed by separator-token pairs gives the tokens. *)
Lemma split_spaced (rest : list (string * string)) :
  forall t,
    isToken t = true ->
    Forall (fun p => isSeparator (fst p) = true /\ isToken (snd p) = true) rest ->
    Js.splitWs false (t ++ spaced rest) = t :: map snd rest.
Proof.
  induction rest as [|[sep tok] rest IH]; intros t Ht Hrest.
  - apply isToken_iff in Ht. destruct Ht as [Hne Hsp].
    destruct (splitWs_token_prefix t EmptyString false Hne Hsp) as (u & us & Hs & Hts).
    simpl in Hs. inversion Hs; subst. simpl spaced. rewrite Hts.
    now rewrite append_nil_r.
  - inversion Hrest as [|p l [Hsep Htok] Hrest']; subst. simpl in Hsep, Htok.
    pose proof Ht as Ht'. apply isToken_iff in Ht'. destruct Ht' as [Hne Hsp].
    destruct (splitWs_token_prefix t (spaced ((sep, tok) :: rest)) false Hne Hsp)
      as (u & us & Hs & Hts).
    rewrite Hts. simpl spaced in Hs.
    rewrite (splitWs_separator_prefix _ _ Hsep) in Hs.
    destruct (token_head tok Htok) as (c & r & -> & Hc).
    change (String c r ++ spaced rest) with (String c (r ++ spaced rest)) in Hs.
    rewrite (splitWs_solid_start _ _ true Hc) in Hs.
    change (String c (r ++ spaced rest)) with (String c r ++ spaced rest) in Hs.
    rewrite (IH _ Htok Hrest') in Hs.
    inversion Hs; subst. simpl. now rewrite append_nil_r.
Qed.

Lemma trimStart_blank_prefix (lead s : string) :
  blank lead = true -> Js.trimStart (lead ++ s) = Js.trimStart s.
Proof.
  induction lead as [|c lead IH]; intros H; [reflexivity|].
  unfold blank in H. simpl in H. apply andb_true_iff in H. destruct H as [Hc Hs].
  simpl. rewrite Hc. now apply IH.
Qed.

Lemma trimEnd_blank (s : string) : blank s = true -> Js.trimEnd s = EmptyString.
Proof.
  induction s as [|c s IH]; intros H; [reflexivity|].
  unfold blank in H. simpl in H. apply andb_true_iff in H. destruct H as [Hc Hs].
  simpl. rewrite (IH Hs), Hc. reflexivity.
Qed.

Lemma trimEnd_blank_suffix (s trail : string) :
  blank trail = true -> Js.trimEnd (s ++ trail) = Js.trimEnd s.
Proof.
  intros H. induction s as [|c s IH]; simpl.
  - now apply trimEnd_blank.
  - now rewrite IH.
Qed.

Lemma trimEnd_spaceless (t : string) : spaceless t = true -> Js.trimEnd t = t.
Proof.
  induction t as [|c t IH]; intros H; [reflexivity|].
  unfold spaceless in H. simpl in H. apply andb_true_iff in H. destruct H as [Hc Ht].
  apply negb_true_iff in Hc. simpl. rewrite (IH Ht), Hc.
  destruct t; reflexivity.
Qed.

(** A string that ends solidly keeps whatever is put in front of it. *)
Lemma trimEnd_solid_suffix (a b : string) :
  b <> EmptyString -> Js.trimEnd b = b -> Js.trimEnd (a ++ b) = a ++ b.
Proof.
  intros Hne Hb. induction a as [|c a IH]; simpl; [exact Hb|].
  rewrite IH. destruct (a ++ b) eqn:E; [|reflexivity].
  destruct a; simpl in E; [congruence | discriminate].
Qed.

Lemma trimEnd_spaced (rest : list (string * string)) :
  forall t,
    isToken t = true ->
    Forall (fun p => isSeparator (fst p) = true /\ isToken (snd p) = true) rest ->
    Js.trimEnd (t ++ spaced rest) = t ++ spaced rest.
Proof.
  induction rest as [|[sep tok] rest IH]; intros t Ht Hrest.
  - simpl. rewrite append_nil_r. apply trimEnd_spaceless.
    apply isToken_iff in Ht. tauto.
  - inversion Hrest as [|p l [Hsep Htok] Hrest']; subst. simpl in Hsep, Htok.
    simpl spaced. rewrite <- append_assoc.
    apply trimEnd_solid_suffix; [|now apply IH].
    destruct (token_head tok Htok) as (c & r & -> & _). discriminate.
Qed.

End SplitterFacts.

Section TrimFacts.

Lemma trimEnd_cons (c : ascii) (r : string) :
  Js.trimEnd (String c r)
  = match Js.trimEnd r with
    | EmptyString => if Js.isSpace c then EmptyString else String c EmptyString
    | String c' r' => String c (String c' r')
    end.
Proof. reflexivity. Qed.

Lemma trimEnd_idempotent (s : string) : Js.trimEnd (Js.trimEnd s) = Js.trimEnd s.
Proof.
  induction s as [|c s IH]; [reflexivity|].
  rewrite (trimEnd_cons c s). destruct (Js.trimEnd s) as [|c' r'] eqn:E.
  - destruct (Js.isSpace c) eqn:Hc; [reflexivity|]. simpl. now rewrite Hc.
  - rewrite (trimEnd_cons c (String c' r')), IH. reflexivity.
Qed.

(** A fixed point of [trimEnd] has a fixed point for tail, and no white
    space as its only character. *)
Lemma trimEnd_fixed_tail (c : ascii) (r : string) :
  Js.trimEnd (String c r) = String c r ->
  Js.trimEnd r = r /\ (Js.isSpace c = true -> r <> EmptyString).
Proof.
  simpl. destruct (Js.trimEnd r) as [|c' r'] eqn:E.
  - destruct (Js.isSpace c) eqn:Hc; [discriminate|].
    intros H. inversion H; subst. split; [exact E | discriminate].
  - intros H. inversion H; subst. split; [reflexivity | discriminate].
Qed.

Lemma trimEnd_keeps_solid_head (c : ascii) (r : string) :
  Js.isSpace c = false -> exists r', Js.trimEnd (String c r) = String c r'.
Proof.
  intros Hc. simpl. destruct (Js.trimEnd r) as [|c' r'].
  - rewrite Hc. eauto.
  - eauto.
Qed.

Lemma trimStart_shape (s : string) :
  Js.trimStart s = EmptyString
  \/ exists c r, Js.trimStart s = String c r /\ Js.isSpace c = false.
Proof.
  induction s as [|c s IH]; simpl; [now left|].
  destruct (Js.isSpace c) eqn:Hc; [exact IH|]. right. eauto.
Qed.

Lemma trimStart_empty_blank (s : string) :
  Js.trimStart s = EmptyString -> blank s = true.
Proof.
  induction s as [|c s IH]; simpl; [reflexivity|].
  unfold blank. simpl. destruct (Js.isSpace c) eqn:Hc; [|discriminate].
  intros H. now apply IH.
Qed.

(** The trimmed string is empty, or starts with a solid character; it is
    empty exactly for blank strings, and trimming its end changes nothing. *)
Lemma trim_shape (s : string) :
  (Js.trim s = EmptyString /\ blank s = true)
  \/ exists c r, Js.trim s = String c r /\ Js.isSpace c = false.
Proof.
  unfold Js.trim. destruct (trimStart_shape s) as [E|(c & r & E & Hc)].
  - left. rewrite E. split; [reflexivity | now apply trimStart_empty_blank].
  - right. rewrite E. destruct (trimEnd_keeps_solid_head c r Hc) as [r' Hr].
    exists c, r'. auto.
Qed.

(** Behind the first piece, a string that ends solidly splits into non-empty
    pieces; the first piece is non-empty too when a separator run is open
    and the string is not empty. *)
Lemma splitWs_pieces_nonempty (s : string) :
  Js.trimEnd s = s ->
  (forall t, In t (tl (Js.splitWs false s)) -> t <> EmptyString)
  /\ (s <> EmptyString -> forall t, In t (Js.splitWs true s) -> t <> EmptyString).
Proof.
  induction s as [|c s IH]; intros Hfix.
  - split; [intros t [] | congruence].
  - destruct (trimEnd_fixed_tail c s Hfix) as [Hs Hlone].
    destruct (IH Hs) as [IHtl IHall].
    cbn [Js.splitWs]. destruct (Js.isSpace c) eqn:Hc.
    + specialize (Hlone eq_refl). split.
      * simpl. now apply IHall.
      * intros _. now apply IHall.
    + destruct (Js.splitWs false s) as [|u us] eqn:E.
      * now destruct (splitWs_nonnil false s).
      * simpl in IHtl. split.
        -- simpl. exact IHtl.
        -- intros _ t [<-|Hin]; [discriminate | now apply IHtl].
Qed.

End TrimFacts.

(** ** Properties of the splitter *)

(** X1.  The tool of a parsed command is empty exactly when the command is
    blank (white space only or empty), and then there are no arguments. *)
Theorem parseCommand_empty_tool_iff_blank :
  forall command : string,
    (tool (parseCommand command) = EmptyString <-> blank command = true)
    /\ (blank command = true -> parseCommand command = mkCommand EmptyString []).
Proof.
  intros command. split; [split|].
  - unfold parseCommand.
    destruct (trim_shape command) as [[E Hb]|(c & r & E & Hc)]; [intros _; exact Hb|].
    rewrite E. cbn [Js.truthy String.eqb negb]. unfold Js.split.
    cbn [Js.splitWs]. rewrite Hc.
    destruct (Js.splitWs false r); simpl; discriminate.
  - intros H. now rewrite (parseCommand_blank command H).
  - apply parseCommand_blank.
Qed.

Section ParsedFacts.

(** The pieces of a parsed command, in the raw: the arguments and, unless the
    trimmed command is empty, the tool are non-empty and free of white
    space. *)
Lemma parsed_pieces (command : string) :
  (forall a, In a (args (parseCommand command)) ->
             a <> EmptyString /\ spaceless a = true)
  /\ (Js.trim command <> EmptyString ->
      tool (parseCommand command) <> EmptyString
      /\ spaceless (tool (parseCommand command)) = true).
Proof.
  assert (Hsp : forall t, In t (Js.split (Js.trim command)) -> spaceless t = true).
  { intros t Ht. apply spaceless_iff. intros c Hc.
    eapply splitWs_tokens_spaceless; eauto. }
  unfold parseCommand.
  destruct (trim_shape command) as [[E Hb]|(c & r & E & Hc)].
  - rewrite E. simpl. split; [intros a [] | congruence].
  - assert (Hfix : Js.trimEnd (Js.trim command) = Js.trim command)
      by apply trimEnd_idempotent.
    destruct (splitWs_pieces_nonempty _ Hfix) as [Htl _].
    fold (Js.split (Js.trim command)) in Htl.
    assert (Hhd : hd EmptyString (Js.split (Js.trim command)) <> EmptyString
                  /\ In (hd EmptyString (Js.split (Js.trim command)))
                        (Js.split (Js.trim command))).
    { rewrite E. unfold Js.split. cbn [Js.splitWs]. rewrite Hc.
      destruct (Js.splitWs false r); simpl; split; (discriminate || now left). }
    assert (Hlive : Js.truthy (Js.trim command) = true) by (rewrite E; reflexivity).
    rewrite Hlive. cbn [negb tool args]. split.
    + intros a Ha. split.
      * now apply Htl.
      * apply Hsp. destruct (Js.split (Js.trim command)); [destruct Ha | now right].
    + intros _. destruct Hhd as [Hne Hin]. split; [exact Hne | now apply Hsp].
Qed.

Lemma trim_blank_iff (s : string) : Js.trim s = EmptyString <-> blank s = true.
Proof.
  split.
  - destruct (trim_shape s) as [[_ Hb]|(c & r & E & _)]; [auto | congruence].
  - intros H. unfold Js.trim. now rewrite (trimStart_blank s H).
Qed.

(** Trimming a token followed by separator-token pairs, between blank
    strings, leaves the token and the pairs. *)
Lemma trim_spaced (lead trail t : string) (rest : list (string * string)) :
  blank lead = true -> blank trail = true -> isToken t = true ->
  Forall (fun p => isSeparator (fst p) = true /\ isToken (snd p) = true) rest ->
  Js.trim (lead ++ (t ++ spaced rest) ++ trail) = t ++ spaced rest.
Proof.
  intros Hlead Htrail Ht Hrest.
  unfold Js.trim. rewrite (trimStart_blank_prefix _ _ Hlead).
  destruct (token_head t Ht) as (c & r & E & Hc).
  assert (Hstart : Js.trimStart ((t ++ spaced rest) ++ trail)
                   = (t ++ spaced rest) ++ trail).
  { rewrite E. simpl. now rewrite Hc. }
  rewrite Hstart, (trimEnd_blank_suffix _ _ Htrail).
  now apply trimEnd_spaced.
Qed.

(** Joining with single spaces writes single-space separators. *)
Lemma join_spaced (rest : list string) :
  forall t, Js.join " " (t :: rest) = t ++ spaced (map (fun a => (" ", a)) rest).
Proof.
  induction rest as [|a rest IH]; intros t.
  - simpl. now rewrite append_nil_r.
  - change (Js.join " " (t :: a :: rest)) with (t ++ " " ++ Js.join " " (a :: rest)).
    rewrite IH. reflexivity.
Qed.

Lemma single_space_pairs (rest : list string) :
  Forall (fun a => isToken a = true) rest ->
  Forall (fun p => isSeparator (fst p) = true /\ isToken (snd p) = true)
    (map (fun a => (" ", a)) rest)
  /\ map snd (map (fun a => (" ", a)) rest) = rest.
Proof.
  induction 1 as [|a rest Ha _ [IH1 IH2]]; simpl.
  - split; [constructor | reflexivity].
  - split; [constructor; [split; [reflexivity | exact Ha] | exact IH1]|].
    now rewrite IH2.
Qed.

(** Parsing tokens joined with single spaces gives the tokens back. *)
Lemma parse_joined (t : string) (rest : list string) :
  isToken t = true -> Forall (fun a => isToken a = true) rest ->
  parseCommand (Js.join " " (t :: rest)) = mkCommand t rest.
Proof.
  intros Ht Hrest. destruct (single_space_pairs rest Hrest) as [Hpairs Hsnd].
  pose proof (trim_spaced EmptyString EmptyString t _ eq_refl eq_refl Ht Hpairs) as Htrim.
  simpl in Htrim. rewrite append_nil_r in Htrim.
  rewrite join_spaced. unfold parseCommand. rewrite Htrim.
  assert (Hlive : Js.truthy (t ++ spaced (map (fun a => (" ", a)) rest)) = true).
  { destruct (token_head t Ht) as (c & r & -> & _). reflexivity. }
  rewrite Hlive. cbn [negb]. unfold Js.split.
  rewrite (split_spaced _ t Ht Hpairs), Hsnd. reflexivity.
Qed.

End ParsedFacts.

(** X2.  Every argument of a parsed command is a token: non-empty and free
    of white space.  So is the tool, unless the command is blank. *)
Theorem parseCommand_tokens :
  forall command : string,
    Forall (fun a => isToken a = true) (args (parseCommand command))
    /\ (blank command = false -> isToken (tool (parseCommand command)) = true).
Proof.
  intros command.
  destruct (parsed_pieces command) as [Hargs Htool]. split.
  - apply Forall_forall. intros a Ha. apply isToken_iff. now apply Hargs.
  - intros Hb. apply isToken_iff. apply Htool.
    intros E. apply trim_blank_iff in E. congruence.
Qed.

Lemma parseCommand_tokens_witness :
  blank "git   push --force " = false
  /\ isToken (tool (parseCommand "git   push --force ")) = true.
Proof.
  split; [reflexivity|].
  apply (proj2 (parseCommand_tokens "git   push --force ")). reflexivity.
Defined.

(** X3.  Any run of white space separates two tokens, and white space
    around the command is dropped: a token followed by separator-token
    pairs, between blank strings, parses into that token as the tool and the
    other tokens, in order, as the arguments. *)
Theorem parseCommand_spaced :
  forall (lead trail t : string) (rest : list (string * string)),
    blank lead = true -> blank trail = true -> isToken t = true ->
    Forall (fun p => isSeparator (fst p) = true /\ isToken (snd p) = true) rest ->
    parseCommand (lead ++ (t ++ spaced rest) ++ trail) = mkCommand t (map snd rest).
Proof.
  intros lead trail t rest Hlead Htrail Ht Hrest.
  pose proof (trim_spaced lead trail t rest Hlead Htrail Ht Hrest) as Htrim.
  unfold parseCommand. rewrite Htrim.
  assert (Hlive : Js.truthy (t ++ spaced rest) = true).
  { destruct (token_head t Ht) as (c & r & -> & _). reflexivity. }
  rewrite Hlive. cbn [negb]. unfold Js.split.
  rewrite (split_spaced rest t Ht Hrest). reflexivity.
Qed.

Lemma parseCommand_spaced_witness :
  parseCommand ("  " ++ ("rm" ++ spaced [("   ", "-rf"); (String "009" " ", "/tmp")]) ++ " ")
  = mkCommand "rm" ["-rf"; "/tmp"].
Proof.
  apply (parseCommand_spaced "  " " " "rm" [("   ", "-rf"); (String "009" " ", "/tmp")]);
    try reflexivity.
  repeat constructor.
Defined.

(** X4.  Joining the tool and the arguments of a parsed command with single
    spaces gives a command that parses to the same tool and arguments: the
    splitter is idempotent on its own normal form. *)
Theorem parseCommand_normal_form :
  forall command : string,
    let c := parseCommand command in
    parseCommand (Js.join " " (tool c :: args c)) = c.
Proof.
  intros command c.
  destruct (parsed_pieces command) as [Hargs Htool]. fold c in Hargs, Htool.
  destruct (trim_shape command) as [[E Hb]|(ch & r & E & Hc)].
  - unfold c. rewrite (parseCommand_blank command Hb). reflexivity.
  - destruct Htool as [Hne Hsp]; [congruence|].
    destruct c as [t xs] eqn:Ec. simpl in *.
    apply parse_joined.
    + apply isToken_iff. auto.
    + apply Forall_forall. intros a Ha. apply isToken_iff. now apply Hargs.
Qed.

(** X5.  Tokens joined with single spaces, the way the command line joins
    its positional arguments, parse back into the first token as the tool
    and the others as the arguments. *)
Theorem parseCommand_of_joined_tokens :
  forall (tokens : list string),
    tokens <> [] ->
    Forall (fun a => isToken a = true) tokens ->
    parseCommand (Js.join " " tokens)
    = mkCommand (hd EmptyString tokens) (tl tokens).
Proof.
  intros [|t rest] Hne Htok; [congruence|].
  inversion Htok; subst. simpl hd. simpl tl. now apply parse_joined.
Qed.

Lemma parseCommand_of_joined_tokens_witness :
  parseCommand (Js.join " " ["docker"; "system"; "prune"; "-a"])
  = mkCommand "docker" ["system"; "prune"; "-a"].
Proof.
  apply (parseCommand_of_joined_tokens ["docker"; "system"; "prune"; "-a"]).
  - discriminate.
  - repeat constructor.
Defined.

(** ** Properties of the aggregator *)

Section AggregationFacts.

Import Aggregator.

Lemma max_assoc (a b c : Severity) : max a (max b c) = max (max a b) c.
Proof. destruct a, b, c; reflexivity. Qed.

Lemma max_comm (a b : Severity) : max a b = max b a.
Proof. destruct a, b; reflexivity. Qed.

Lemma max_low_l (a : Severity) : max low a = a.
Proof. destruct a; reflexivity. Qed.

Lemma le_max_l (a b : Severity) : le a (max a b).
Proof. destruct a, b; unfold le; simpl; lia. Qed.

Lemma maxSeverity_app (xs ys : list Risk) :
  maxSeverity (xs ++ ys) = max (maxSeverity xs) (maxSeverity ys).
Proof.
  induction xs as [|x xs IH]; simpl.
  - now rewrite max_low_l.
  - now rewrite IH, max_assoc.
Qed.

Lemma maxSeverity_permutation (xs ys : list Risk) :
  Permutation xs ys -> maxSeverity xs = maxSeverity ys.
Proof.
  induction 1 as [|x xs ys _ IH|x y xs|xs ys zs _ IH1 _ IH2]; simpl.
  - reflexivity.
  - now rewrite IH.
  - rewrite !max_assoc. now rewrite (max_comm (risk y) (risk x)).
  - now rewrite IH1.
Qed.

End AggregationFacts.

(** X6.  The level of two lists of findings put together is the higher of
    their levels; in particular the order of the two lists does not
    matter. *)
Theorem getRiskLevel_append :
  forall xs ys : list Risk,
    getRiskLevel (xs ++ ys) = Aggregator.max (getRiskLevel xs) (getRiskLevel ys)
    /\ getRiskLevel (xs ++ ys) = getRiskLevel (ys ++ xs).
Proof.
  intros xs ys. rewrite !AggregatorFacts.getRiskLevel_max, !maxSeverity_app.
  split; [reflexivity | apply max_comm].
Qed.

(** X7.  The level depends on which findings there are, not on their order:
    two lists that are permutations of one another have the same level. *)
Theorem getRiskLevel_permutation :
  forall xs ys : list Risk,
    Permutation xs ys -> getRiskLevel xs = getRiskLevel ys.
Proof.
  intros xs ys H. rewrite !AggregatorFacts.getRiskLevel_max.
  now apply maxSeverity_permutation.
Qed.

Lemma getRiskLevel_permutation_witness :
  getRiskLevel [ byFlag "-r" medium "a"; byFlag "-f" high "b"; byFlag "755" low "c" ]
  = getRiskLevel [ byFlag "755" low "c"; byFlag "-r" medium "a"; byFlag "-f" high "b" ].
Proof.
  apply getRiskLevel_permutation.
  apply Permutation_sym.
  apply (Permutation_cons_app [ byFlag "-r" medium "a"; byFlag "-f" high "b" ] []).
  rewrite app_nil_r. apply Permutation_refl.
Defined.

(** X8.  The heuristic layer never lowers the verdict: the risk level of an
    analysis is at least the level of what the matcher alone found. *)
Theorem heuristics_never_lower :
  forall command : string,
    let c := parseCommand command in
    Aggregator.le (getRiskLevel (ra_risks (analyzeRisks (tool c) (args c))))
                  (riskLevel (analyzeCommand command)).
Proof.
  intros command c. rewrite riskLevel_aggregates.
  destruct (Js.truthy (tool c)) eqn:Et.
  - unfold c in *. rewrite (risks_of_live_command _ Et).
    rewrite !AggregatorFacts.getRiskLevel_max, maxSeverity_app. apply le_max_l.
  - assert (E : tool c = EmptyString).
    { destruct (String.eqb_spec (tool c) EmptyString) as [E|Hne]; [exact E|].
      apply truthy_iff in Hne. congruence. }
    rewrite E. unfold Aggregator.le. simpl. lia.
Qed.

(** ** Substrings of joined arguments *)

Section OccurrenceFacts.

Lemma chars_app (a b : string) (c : ascii) :
  In c (chars (a ++ b)) <-> In c (chars a) \/ In c (chars b).
Proof.
  unfold chars. induction a as [|x a IH]; simpl.
  - tauto.
  - rewrite IH. tauto.
Qed.

(** Two ways of cutting one string overlap in a middle part. *)
Lemma append_eq_append (a b c d : string) :
  a ++ b = c ++ d ->
  (exists m, c = a ++ m /\ b = m ++ d) \/ (exists m, a = c ++ m /\ d = m ++ b).
Proof.
  revert c. induction a as [|x a IH]; intros c H.
  - left. exists c. auto.
  - destruct c as [|y c].
    + right. exists (String x a). auto.
    + simpl in H. inversion H; subst.
      destruct (IH c H2) as [(m & -> & ->)|(m & -> & ->)]; [left | right]; exists m; auto.
Qed.

Lemma occursIn_refl (s : string) : occursIn s s.
Proof. exists EmptyString, EmptyString. simpl. now rewrite append_nil_r. Qed.

Lemma occursIn_trans (p q s : string) : occursIn p q -> occursIn q s -> occursIn p s.
Proof.
  intros (a & b & ->) (c & d & ->).
  exists (c ++ a), (b ++ d). now rewrite !append_assoc.
Qed.

Lemma occursIn_wrap (p pre s post : string) :
  occursIn p s -> occursIn p (pre ++ s ++ post).
Proof.
  intros H. apply (occursIn_trans p s); [exact H|]. now exists pre, post.
Qed.

Lemma occursIn_empty (p : string) : occursIn p EmptyString -> p = EmptyString.
Proof.
  intros (a & b & H). destruct a; [|discriminate]. destruct p; [reflexivity | discriminate].
Qed.

(** A substring without the character [ch] lies on one side of [ch]. *)
Lemma occursIn_across (p a b : string) (ch : ascii) :
  ~ In ch (chars p) ->
  occursIn p (a ++ String ch b) -> occursIn p a \/ occursIn p b.
Proof.
  intros Hch (pre & post & H).
  destruct (append_eq_append _ _ _ _ H) as [(m & -> & Hb)|(m & -> & Hp)].
  - destruct m as [|x m]; simpl in Hb.
    + destruct p as [|y p].
      * left. exists a, EmptyString. simpl. now rewrite append_nil_r.
      * inversion Hb; subst. destruct Hch. now left.
    + inversion Hb; subst. right. now exists m, post.
  - destruct (append_eq_append _ _ _ _ Hp) as [(m2 & -> & _)|(m2 & -> & Hm2)].
    + left. exists pre, m2. reflexivity.
    + destruct m2 as [|x m2]; simpl in Hm2.
      * left. exists pre, EmptyString. now rewrite !append_nil_r.
      * inversion Hm2; subst. destruct Hch.
        apply chars_app. right. now left.
Qed.

Lemma member_in_join (xs : list string) (x : string) :
  In x xs -> occursIn x (Js.join " " xs).
Proof.
  induction xs as [|h rest IH]; [intros []|].
  intros Hin. destruct rest as [|h' rest'].
  - destruct Hin as [<-|[]]. apply occursIn_refl.
  - change (Js.join " " (h :: h' :: rest')) with (h ++ " " ++ Js.join " " (h' :: rest')).
    destruct Hin as [<-|Hin].
    + exists EmptyString, (" " ++ Js.join " " (h' :: rest')). reflexivity.
    + destruct (IH Hin) as (pre & post & E). rewrite E.
      exists (h ++ " " ++ pre), post. now rewrite !append_assoc.
Qed.

(** A non-empty pattern without a space occurs in the joined arguments
    exactly when it occurs inside one of them. *)
Lemma occursIn_join (p : string) (xs : list string) :
  p <> EmptyString -> ~ In " "%char (chars p) ->
  (occursIn p (Js.join " " xs) <-> exists x, In x xs /\ occursIn p x).
Proof.
  intros Hne Hsp. split.
  - induction xs as [|h rest IH]; intros H.
    + apply occursIn_empty in H. congruence.
    + destruct rest as [|h' rest'].
      * exists h. split; [now left | exact H].
      * change (Js.join " " (h :: h' :: rest'))
          with (h ++ String " " (Js.join " " (h' :: rest'))) in H.
        destruct (occursIn_across _ _ _ _ Hsp H) as [Hh|Hrest].
        -- exists h. split; [now left | exact Hh].
        -- destruct (IH Hrest) as (x & Hin & Hx). exists x. split; [now right | exact Hx].
  - intros (x & Hin & Hx). apply (occursIn_trans p x); [exact Hx|].
    now apply member_in_join.
Qed.

End OccurrenceFacts.

(** ** Properties of the matcher *)

Section MatcherMoreFacts.

(** Only dd and sudo have pattern-keyed entries. *)
Lemma catalog_pattern_tools (t : string) (pat : Pattern) (rs : list Risk)
    (item : Risk) (p : string) :
  Js.get riskPatterns t = Js.Own pat -> p_risks pat = Some rs ->
  In item rs -> pattern item = Some p -> t = "dd" \/ t = "sudo".
Proof.
  intros H Hrs Hin Hp. apply get_Own_In in H.
  catalog_cases H; simpl in Hrs; inversion Hrs; subst; clear Hrs;
    member_cases Hin; simpl in Hp; inversion Hp; auto.
Qed.

(** The tools whose catalog entry has subcommands and no risk list. *)
Lemma catalog_subcommand_tools (t : string) (pat : Pattern)
    (subs : list (string * SubPattern)) :
  Js.get riskPatterns t = Js.Own pat -> p_risks pat = None ->
  p_subcommands pat = Some subs ->
  t = "git" \/ (t = "docker" /\ In "system" (map fst subs)).
Proof.
  intros H Hrs Hsubs. apply get_Own_In in H.
  catalog_cases H; simpl in Hrs; try discriminate;
    simpl in Hsubs; inversion Hsubs; subst; simpl; auto.
Qed.

Lemma get_undeclared {A : Type} (obj : list (string * A)) (key : string) :
  ~ In key (map fst obj) -> forall v, Js.get obj key <> Js.Own v.
Proof.
  intros H v. unfold Js.get. apply getOwn_None_iff in H. rewrite H.
  destruct (Js.arrIncludes Js.objectPrototypeKeys key); discriminate.
Qed.

End MatcherMoreFacts.

(** X9.  The matcher invents nothing: each of its findings carries the risk
    and the reason of an entry the catalog declares for that tool, either in
    the tool's own risk list or in the risk list of the subcommand that the
    first argument names, and is keyed by that entry's flag or pattern. *)
Theorem matcher_findings_from_catalog :
  forall (tool : string) (args : list string) (r : Risk),
    In r (ra_risks (analyzeRisks tool args)) ->
    exists pat item,
      Js.get riskPatterns tool = Js.Own pat
      /\ risk r = risk item /\ reason r = reason item
      /\ ((exists rs,
              p_risks pat = Some rs /\ In item rs
              /\ (r = flagFinding item \/ r = patternFinding item))
          \/ (exists subs k sp rs,
                 p_subcommands pat = Some subs /\ nth_error args 0 = Some k
                 /\ Js.get subs k = Js.Own sp /\ subRisks sp = Some rs
                 /\ In item rs /\ r = flagFinding item)).
Proof.
  intros tool args r Hin.
  destruct (Js.get riskPatterns tool) as [pat|k|] eqn:Eg.
  - rewrite (analyzeRisks_own _ _ _ Eg) in Hin.
    apply in_app_or in Hin. destruct Hin as [Hin|Hin].
    + destruct (p_risks pat) as [rs|] eqn:Ers; [|destruct Hin].
      apply directRisks_In in Hin. destruct Hin as (item & Hitem & Hr).
      exists pat, item. split; [reflexivity|].
      assert (Hshape : r = flagFinding item \/ r = patternFinding item)
        by (destruct Hr as [[_ ->]|[_ ->]]; auto).
      split; [destruct Hshape as [->| ->]; reflexivity|].
      split; [destruct Hshape as [->| ->]; reflexivity|].
      left. exists rs. auto.
    + destruct (p_subcommands pat) as [subs|] eqn:Esubs; [|destruct Hin].
      destruct (nth_error args 0) as [subCmd|] eqn:E0; [|destruct Hin].
      destruct (Js.truthy subCmd); [|destruct Hin].
      destruct (Js.get subs subCmd) as [sp| |] eqn:Esp; try destruct Hin.
      destruct (subRisks sp) as [rs|] eqn:Ers; [|destruct Hin].
      apply subcommandRisks_In in Hin.
      destruct Hin as (item & f & Hitem & _ & _ & ->).
      exists pat, item. split; [reflexivity|]. split; [reflexivity|].
      split; [reflexivity|]. right. exists subs, subCmd, sp, rs. auto 10.
  - rewrite analyzeRisks_not_own in Hin; [destruct Hin | intros pat; congruence].
  - rewrite analyzeRisks_not_own in Hin; [destruct Hin | intros pat; congruence].
Qed.

Lemma matcher_findings_from_catalog_witness :
  exists pat item,
    Js.get riskPatterns "chmod" = Js.Own pat
    /\ risk (byFlag "777" high "World-readable/writable; major security vulnerability")
       = risk item.
Proof.
  destruct (matcher_findings_from_catalog "chmod" ["777"; "file.txt"]
              (byFlag "777" high "World-readable/writable; major security vulnerability"))
    as (pat & item & Hpat & Hrisk & _).
  - left. reflexivity.
  - exists pat, item. auto.
Defined.

(** X10.  The matcher reports found = true exactly for the tools that are a
    key of the catalog or a property name inherited from Object.prototype;
    when it reports found = false it has no finding; and it echoes the
    tool. *)
Theorem matcher_found_iff :
  forall (tool : string) (args : list string),
    (found (analyzeRisks tool args) = true
     <-> In tool (map fst riskPatterns) \/ In tool Js.objectPrototypeKeys)
    /\ (found (analyzeRisks tool args) = false ->
        ra_risks (analyzeRisks tool args) = [])
    /\ ra_tool (analyzeRisks tool args) = tool.
Proof.
  intros tool args. unfold analyzeRisks, Js.get.
  destruct (Js.getOwn riskPatterns tool) as [pat|] eqn:E.
  - cbn [found ra_risks ra_tool]. split; [|split; [discriminate | reflexivity]].
    split; [intros _ | reflexivity]. left.
    apply getOwn_In in E. now apply (in_map fst) in E.
  - apply getOwn_None_iff in E.
    destruct (Js.arrIncludes Js.objectPrototypeKeys tool) eqn:Ep;
      cbn [found ra_risks ra_tool].
    + apply arrIncludes_In in Ep. split; [tauto | split; [discriminate | reflexivity]].
    + split; [|split; reflexivity].
      split; [discriminate|]. intros [H|H]; [contradiction|].
      apply arrIncludes_In in H. congruence.
Qed.

(** X11.  For a tool whose catalog entry only has subcommands (git and
    docker), a command whose first argument is none of the declared
    subcommand names, or that has no argument, gets no finding at all,
    whatever flags follow, and risk level low. *)
Theorem undeclared_subcommand_unflagged :
  forall (command : string) (pat : Pattern) (subs : list (string * SubPattern)),
    let c := parseCommand command in
    Js.get riskPatterns (tool c) = Js.Own pat ->
    p_risks pat = None ->
    p_subcommands pat = Some subs ->
    (forall k, nth_error (args c) 0 = Some k -> ~ In k (map fst subs)) ->
    risks (analyzeCommand command) = []
    /\ riskLevel (analyzeCommand command) = low.
Proof.
  intros command pat subs c Hpat Hrs Hsubs Hfirst.
  assert (Hlive : Js.truthy (tool c) = true) by (eapply catalog_tool_truthy; eauto).
  assert (Hres : risks (analyzeCommand command) = []).
  { rewrite (risks_of_live_command command Hlive). fold c.
    rewrite (analyzeRisks_own _ _ _ Hpat), Hrs, Hsubs.
    assert (Hsub : match nth_error (args c) 0 with
                   | Some subCmd =>
                       if Js.truthy subCmd then
                         match Js.get subs subCmd with
                         | Js.Own subPattern =>
                             match subRisks subPattern with
                             | Some rs => flat_map (subcommandRisks (args c)) rs
                             | None => []
                             end
                         | Js.Inherited _ => []
                         | Js.Undefined => []
                         end
                       else []
                   | None => []
                   end = []).
    { destruct (nth_error (args c) 0) as [k|] eqn:E0; [|reflexivity].
      destruct (Js.truthy k); [|reflexivity].
      pose proof (get_undeclared subs k (Hfirst k eq_refl)) as Hk.
      destruct (Js.get subs k) as [sp| |]; [now destruct (Hk sp) | reflexivity | reflexivity]. }
    rewrite Hsub. simpl.
    destruct (catalog_subcommand_tools _ _ _ Hpat Hrs Hsubs) as [Et|[Et Hsys]].
    - rewrite Et. reflexivity.
    - rewrite Et. unfold checkPipeRisks, argIs.
      destruct (nth_error (args c) 0) as [k|] eqn:E0; [|reflexivity].
      destruct (String.eqb_spec k "system") as [->|Hne]; [|reflexivity].
      destruct (Hfirst "system" eq_refl Hsys). }
  split; [exact Hres|]. rewrite riskLevel_aggregates, Hres. reflexivity.
Qed.

Lemma undeclared_subcommand_unflagged_witness :
  risks (analyzeCommand "git commit -f --force") = []
  /\ riskLevel (analyzeCommand "git commit -f --force") = low.
Proof.
  apply (undeclared_subcommand_unflagged "git commit -f --force" _ _ eq_refl eq_refl eq_refl).
  intros k Hk. vm_compute in Hk. inversion Hk; subst.
  simpl. intuition discriminate.
Defined.

(** X12.  Pattern-keyed catalog entries are tested against the arguments
    joined with spaces, and no pattern of the catalog contains a space: the
    finding of a pattern-keyed entry of the tool is in the analysis exactly
    when the pattern occurs inside one of the arguments. *)
Theorem pattern_entries_match_within_a_token :
  forall (command : string) (pat : Pattern) (rs : list Risk) (item : Risk) (p : string),
    let c := parseCommand command in
    Js.get riskPatterns (tool c) = Js.Own pat ->
    p_risks pat = Some rs -> In item rs -> pattern item = Some p ->
    (In (patternFinding item) (risks (analyzeCommand command))
     <-> exists a, In a (args c) /\ occursIn p a).
Proof.
  intros command pat rs item p c Hpat Hrs Hitem Hp.
  assert (Hlive : Js.truthy (tool c) = true) by (eapply catalog_tool_truthy; eauto).
  assert (Hshape : Js.truthy p = true /\ p <> EmptyString /\ ~ In " "%char (chars p)).
  { destruct (catalog_patterns _ _ _ _ _ Hpat Hrs Hitem Hp) as [->|[->| ->]];
      (split; [reflexivity|]); (split; [discriminate|]); simpl; intuition discriminate. }
  destruct Hshape as (Htruthy & Hne & Hsp).
  rewrite <- (occursIn_join p (args c) Hne Hsp).
  rewrite (risks_of_live_command command Hlive). fold c.
  rewrite (analyzeRisks_own _ _ _ Hpat), Hrs.
  split.
  - intros Hin. apply in_app_or in Hin. destruct Hin as [Hin|Hin].
    + apply in_app_or in Hin. destruct Hin as [Hin|Hin].
      * apply directRisks_In in Hin.
        destruct Hin as (item' & _ & [[_ E]|[Hhit E]]).
        -- unfold patternFinding, flagFinding in E. inversion E. congruence.
        -- unfold patternFinding in E. inversion E as [[Epat Erisk Ereason]].
           unfold patternHit in Hhit. rewrite <- Epat, Hp in Hhit.
           apply andb_true_iff in Hhit. destruct Hhit as [_ Hinc].
           now apply includes_iff.
      * destruct (p_subcommands pat) as [subs|]; [|destruct Hin].
        destruct (nth_error (args c) 0) as [subCmd|]; [|destruct Hin].
        destruct (Js.truthy subCmd); [|destruct Hin].
        destruct (Js.get subs subCmd) as [sp| |]; try destruct Hin.
        destruct (subRisks sp) as [rs'|]; [|destruct Hin].
        apply subcommandRisks_In in Hin.
        destruct Hin as (item' & f & _ & _ & _ & E).
        unfold patternFinding, flagFinding in E. inversion E. congruence.
    + destruct (checkPipeRisks_shapes _ _ _ _ _ Hin) as [(_ & _ & Ht)|[E _]].
      * destruct (catalog_pattern_tools _ _ _ _ _ Hpat Hrs Hitem Hp) as [E|E];
          rewrite E in Ht; destruct Ht; discriminate.
      * unfold patternFinding in E. inversion E.
  - intros Hocc. apply in_or_app. left. apply in_or_app. left.
    apply directRisks_In. exists item. split; [exact Hitem|]. right.
    split; [|reflexivity]. unfold patternHit. rewrite Hp, Htruthy.
    now apply includes_iff.
Qed.

Lemma pattern_entries_match_within_a_token_witness :
  In (patternFinding
        (byPattern "of=/dev/" high
           "Writing to raw disk device; IRREVERSIBLE data corruption"))
     (risks (analyzeCommand "dd if=image.iso of=/dev/sda"))
  <-> exists a, In a (args (parseCommand "dd if=image.iso of=/dev/sda"))
                /\ occursIn "of=/dev/" a.
Proof.
  apply (pattern_entries_match_within_a_token "dd if=image.iso of=/dev/sda"
           _ _ (byPattern "of=/dev/" high
                  "Writing to raw disk device; IRREVERSIBLE data corruption")
           "of=/dev/" eq_refl eq_refl).
  - right. left. reflexivity.
  - reflexivity.
Defined.

(** X13.  The sudo pattern is tested against the arguments, not the tool: a
    command whose tool is sudo gets the medium sudo finding, and risk level
    medium, exactly when one of its arguments contains "sudo"; otherwise it
    has no finding and risk level low, whatever it runs. *)
Theorem sudo_flagged_only_by_its_arguments :
  forall command : string,
    let c := parseCommand command in
    let a := analyzeCommand command in
    tool c = "sudo" ->
    ((exists x, In x (args c) /\ occursIn "sudo" x) ->
     risks a = [ mkRisk None (Some "sudo") medium
                   "Executing with root privileges; verify command is safe" ]
     /\ riskLevel a = medium)
    /\ ((forall x, In x (args c) -> ~ occursIn "sudo" x) ->
        risks a = [] /\ riskLevel a = low).
Proof.
  intros command c a Ht.
  assert (Hlive : Js.truthy (tool c) = true) by (rewrite Ht; reflexivity).
  assert (Hres : risks a
                 = if Js.includes (Js.join " " (args c)) "sudo"
                   then [ mkRisk None (Some "sudo") medium
                            "Executing with root privileges; verify command is safe" ]
                   else []).
  { unfold a. rewrite (risks_of_live_command command Hlive). fold c. rewrite Ht.
    rewrite (analyzeRisks_own "sudo" _ _ eq_refl).
    cbn [p_risks p_subcommands flat_map]. unfold directRisks, flagHit, patternHit.
    cbn [flag pattern byPattern risk reason Js.truthy String.eqb negb andb].
    unfold checkPipeRisks. cbn [String.eqb Ascii.eqb Bool.eqb orb andb].
    destruct (Js.includes (Js.join " " (args c)) "sudo"); reflexivity. }
  assert (Hjoin : occursIn "sudo" (Js.join " " (args c))
                  <-> exists x, In x (args c) /\ occursIn "sudo" x).
  { apply occursIn_join; [discriminate | simpl; intuition discriminate]. }
  unfold a in *. rewrite riskLevel_aggregates, Hres. split.
  - intros Hx. apply Hjoin, includes_iff in Hx. rewrite Hx. split; reflexivity.
  - intros Hnone.
    destruct (Js.includes (Js.join " " (args c)) "sudo") eqn:E; [|split; reflexivity].
    apply includes_iff, Hjoin in E. destruct E as (x & Hin & Hx).
    destruct (Hnone x Hin Hx).
Qed.

Lemma sudo_flagged_only_by_its_arguments_witness :
  risks (analyzeCommand "sudo rm -rf /") = []
  /\ riskLevel (analyzeCommand "sudo rm -rf /") = low.
Proof.
  apply (proj2 (sudo_flagged_only_by_its_arguments "sudo rm -rf /" eq_refl)).
  intros x Hin Hocc. apply includes_iff in Hocc.
  vm_compute in Hin.
  destruct Hin as [<-|[<-|[<-|[]]]]; vm_compute in Hocc; discriminate.
Defined.

(** ** Properties of the heuristic layer *)

Section HeuristicFacts.

(** The matcher finds nothing for curl and wget: their catalog flags contain
    a space and no token does. *)
Lemma downloaders_unmatched (command : string) :
  tool (parseCommand command) = "curl" \/ tool (parseCommand command) = "wget" ->
  ra_risks (analyzeRisks (tool (parseCommand command)) (args (parseCommand command))) = [].
Proof.
  intros Htool.
  assert (Hspaced : forall f, In " "%char (chars f) ->
                              ~ In f (args (parseCommand command))).
  { intros f Hsp Hin.
    pose proof (parseCommand_args_spaceless command f Hin " "%char Hsp). discriminate. }
  destruct (ra_risks _) as [|r rest] eqn:Em; [reflexivity|].
  assert (Hin : In r (ra_risks (analyzeRisks (tool (parseCommand command))
                                  (args (parseCommand command)))))
    by (rewrite Em; now left).
  exfalso.
  destruct Htool as [E|E]; rewrite E in Hin;
    [ rewrite (analyzeRisks_own "curl" _ _ eq_refl) in Hin
    | rewrite (analyzeRisks_own "wget" _ _ eq_refl) in Hin ];
    cbn [p_risks p_subcommands] in Hin; rewrite app_nil_r in Hin;
    apply directRisks_In in Hin;
    destruct Hin as (item & Hitem & [[Hhit _]|[Hhit _]]);
    member_cases Hitem;
    try (simpl in Hhit; discriminate);
    (eapply Hspaced; [|eapply flagHit_In; [|exact Hhit]; reflexivity]);
    simpl; auto.
Qed.

End HeuristicFacts.

(** X14.  For curl and wget the verdict rests on the raw text alone: the
    analysis has exactly one finding, a high one keyed "| sh" or "| bash",
    when the raw command contains "| sh" or "| bash", and otherwise no
    finding and risk level low, whatever the arguments are. *)
Theorem downloader_verdict :
  forall command : string,
    let c := parseCommand command in
    let a := analyzeCommand command in
    tool c = "curl" \/ tool c = "wget" ->
    (occursIn "| sh" command \/ occursIn "| bash" command ->
     riskLevel a = high
     /\ exists key,
          (key = "| sh" \/ key = "| bash")
          /\ risks a = [ mkRisk None (Some key) high
                           "Piping to shell executes downloaded content without inspection" ])
    /\ (~ occursIn "| sh" command -> ~ occursIn "| bash" command ->
        risks a = [] /\ riskLevel a = low).
Proof.
  intros command c a Htool.
  assert (Hlive : Js.truthy (tool c) = true)
    by (destruct Htool as [E|E]; rewrite E; reflexivity).
  assert (Hres : risks a
                 = if Js.includes command "| sh" || Js.includes command "| bash"
                   then [ mkRisk None
                            (Some (if Js.includes command "| sh" then "| sh" else "| bash"))
                            high
                            "Piping to shell executes downloaded content without inspection" ]
                   else []).
  { unfold a. rewrite (risks_of_live_command command Hlive).
    rewrite (downloaders_unmatched command Htool). fold c.
    unfold checkPipeRisks.
    destruct Htool as [E|E]; rewrite E;
      cbn [String.eqb Ascii.eqb Bool.eqb orb andb app];
      destruct (Js.includes command "| sh" || Js.includes command "| bash");
      reflexivity. }
  unfold a in *. rewrite riskLevel_aggregates, Hres. split.
  - intros Hpipe.
    assert (E : Js.includes command "| sh" || Js.includes command "| bash" = true).
    { apply orb_true_iff. destruct Hpipe as [H|H]; [left | right]; now apply includes_iff. }
    rewrite E. split; [reflexivity|].
    destruct (Js.includes command "| sh"); [exists "| sh" | exists "| bash"]; auto.
  - intros Hsh Hbash.
    destruct (Js.includes command "| sh") eqn:E1.
    { apply includes_iff in E1. contradiction. }
    destruct (Js.includes command "| bash") eqn:E2.
    { apply includes_iff in E2. contradiction. }
    split; reflexivity.
Qed.

Lemma downloader_verdict_witness :
  risks (analyzeCommand "curl https://example.com |sh") = []
  /\ riskLevel (analyzeCommand "curl https://example.com |sh") = low.
Proof.
  apply (proj2 (downloader_verdict "curl https://example.com |sh" (or_introl eq_refl))).
  - intros H. apply includes_iff in H. vm_compute in H. discriminate.
  - intros H. apply includes_iff in H. vm_compute in H. discriminate.
Defined.

(** X15.  The heuristic layer yields at most one finding, always a high one,
    and none unless the tool is curl, wget or docker; it does not look at
    what the matcher found. *)
Theorem heuristic_findings_shape :
  forall (command tool : string) (args : list string) (ra ra' : RiskAnalysis),
    length (checkPipeRisks command tool args ra) <= 1
    /\ (forall r, In r (checkPipeRisks command tool args ra) -> risk r = high)
    /\ (checkPipeRisks command tool args ra <> [] ->
        tool = "curl" \/ tool = "wget" \/ tool = "docker")
    /\ checkPipeRisks command tool args ra = checkPipeRisks command tool args ra'.
Proof.
  intros command tool args ra ra'.
  assert (Hhigh : forall r, In r (checkPipeRisks command tool args ra) -> risk r = high).
  { intros r Hin.
    destruct (checkPipeRisks_shapes _ _ _ _ _ Hin) as [(Hf & Hr & _)|[-> _]];
      [|reflexivity].
    unfold checkPipeRisks in Hin. apply in_app_or in Hin.
    destruct Hin as [Hin|Hin].
    - destruct (_ && _); [|destruct Hin]. destruct Hin as [<-|[]]. reflexivity.
    - destruct (_ && _); [|destruct Hin]. destruct Hin as [<-|[]]. reflexivity. }
  split; [|split; [exact Hhigh|split; [|reflexivity]]].
  - unfold checkPipeRisks.
    destruct (String.eqb_spec tool "curl") as [->|H1];
      [cbn [String.eqb Ascii.eqb Bool.eqb orb andb];
       destruct (_ || _); simpl; lia|].
    destruct (String.eqb_spec tool "wget") as [->|H2];
      [cbn [String.eqb Ascii.eqb Bool.eqb orb andb];
       destruct (_ || _); simpl; lia|].
    cbn [orb andb app]. destruct (_ && _); simpl; lia.
  - intros Hne.
    destruct (checkPipeRisks command tool args ra) as [|r rest] eqn:E; [congruence|].
    assert (Hin : In r (checkPipeRisks command tool args ra)) by (rewrite E; now left).
    destruct (checkPipeRisks_shapes _ _ _ _ _ Hin) as [(_ & _ & [H|H])|[_ H]]; auto.
Qed.

(** ** Properties of the suggestion resolver *)

(** X16.  Putting text around a command never loses its directed
    suggestion: the longer command still gets a rule, the same one or one
    declared earlier in the catalog. *)
Theorem suggestion_survives_wrapping :
  forall (command pre post : string) (r : Suggestion),
    getSuggestion command = Some r ->
    exists i j key key' r',
      nth_error suggestions i = Some (key, r)
      /\ nth_error suggestions j = Some (key', r')
      /\ j <= i
      /\ getSuggestion (pre ++ command ++ post) = Some r'.
Proof.
  intros command pre post r H. unfold getSuggestion in *.
  pose proof (firstIncluded_first suggestions command) as H1. rewrite H in H1.
  destruct H1 as (i & key & Hi & Hocc & _).
  pose proof (firstIncluded_first suggestions (pre ++ command ++ post)) as H2.
  assert (Hocc' : occursIn key (pre ++ command ++ post)) by now apply occursIn_wrap.
  destruct (firstIncluded suggestions (pre ++ command ++ post)) as [r'|].
  - destruct H2 as (j & key' & Hj & _ & Hfirst).
    exists i, j, key, key', r'. repeat split; try assumption.
    destruct (Nat.le_gt_cases j i) as [Hle|Hgt]; [exact Hle|].
    destruct (Hfirst i key r Hgt Hi Hocc').
  - apply nth_error_In in Hi. destruct (H2 key r Hi Hocc').
Qed.

Lemma suggestion_survives_wrapping_witness :
  exists r', getSuggestion ("rm -rf build && " ++ "git push --force" ++ " origin") = Some r'.
Proof.
  destruct (suggestion_survives_wrapping "git push --force" "rm -rf build && " " origin"
              (mkSuggestion "git push --force" "git push --force-with-lease"
                 "Only force-push if remote hasn't changed; safer for shared repos")
              eq_refl)
    as (i & j & key & key' & r' & _ & _ & _ & H).
  exists r'. exact H.
Defined.

(** ** Properties of the explanations and of the whole analysis *)

Section LiveAnalysisFacts.

(** The analysis of a command with a non-empty tool, field by field. *)
Lemma live_analysis (command : string) :
  Js.truthy (tool (parseCommand command)) = true ->
  let t := tool (parseCommand command) in
  let xs := args (parseCommand command) in
  a_tool (analyzeCommand command) = t
  /\ explanation (analyzeCommand command) = generateExplanation t xs (analyzeRisks t xs)
  /\ dryRun (analyzeCommand command) = generateDryRun t xs (analyzeRisks t xs)
  /\ directedSuggestion (analyzeCommand command) = Some (getSuggestion command).
Proof.
  unfold analyzeCommand. destruct (parseCommand command) as [t xs]. simpl.
  intros ->. repeat split.
Qed.

Lemma prototype_key_facts (t : string) :
  In t Js.objectPrototypeKeys ->
  Js.truthy t = true
  /\ ~ In t [ "rm"; "mv"; "cp"; "git"; "docker"; "chmod"; "chown"; "dd"; "curl";
              "wget"; "npm"; "node" ].
Proof.
  intros H. unfold Js.objectPrototypeKeys in H. simpl in H.
  repeat (destruct H as [<-|H]; [split; [reflexivity | simpl; intuition discriminate]|]).
  destruct H.
Qed.

Lemma first_argument_leads_join (x : string) (xs : list string) :
  nth_error xs 0 = Some x -> exists rest, Js.join " " xs = x ++ rest.
Proof.
  destruct xs as [|h [|h' rest']]; simpl; intros H; inversion H; subst.
  - exists EmptyString. now rewrite append_nil_r.
  - eexists. reflexivity.
Qed.

End LiveAnalysisFacts.

(** X17.  The explanation of an analysis is a string unless the tool is a
    property name inherited from Object.prototype, and for each of those
    names it is the inherited member. *)
Theorem explanation_text_unless_prototype_name :
  forall command : string,
    let c := parseCommand command in
    let a := analyzeCommand command in
    (In (tool c) Js.objectPrototypeKeys -> explanation a = PrototypeMember (tool c))
    /\ (~ In (tool c) Js.objectPrototypeKeys -> exists s, explanation a = Text s).
Proof.
  intros command c a. unfold a. split.
  - intros Hproto. destruct (prototype_key_facts _ Hproto) as [Hlive Hkeys].
    destruct (live_analysis command Hlive) as (_ & -> & _). fold c.
    unfold generateExplanation, Js.get.
    rewrite <- (explanations_keys (Js.join " " (args c))) in Hkeys.
    apply getOwn_None_iff in Hkeys. rewrite Hkeys.
    apply arrIncludes_In in Hproto. now rewrite Hproto.
  - intros Hproto. destruct (Js.truthy (tool c)) eqn:Hlive.
    + destruct (live_analysis command Hlive) as (_ & -> & _).
      now apply generateExplanation_text.
    + exists "Empty command.". unfold c in *. unfold analyzeCommand.
      destruct (parseCommand command) as [t xs]. simpl in Hlive. now rewrite Hlive.
Qed.

Lemma explanation_text_unless_prototype_name_witness :
  explanation (analyzeCommand "toString --help") = PrototypeMember "toString".
Proof.
  apply (proj1 (explanation_text_unless_prototype_name "toString --help")).
  vm_compute. tauto.
Defined.

(** X18.  For rm the explanation tests a substring where the matcher tests a
    token: the explanation is the "-rf" one exactly when some argument
    contains "-rf", while a "-rf" token gives, besides that explanation, the
    high -rf finding, risk level high and a dry-run that says the deletion is
    recursive. *)
Theorem rm_rf_explained_and_flagged :
  forall command : string,
    let c := parseCommand command in
    let a := analyzeCommand command in
    tool c = "rm" ->
    (explanation a
     = Text "Deletes files/directories. Recursive mode (-rf) deletes everything in path WITHOUT confirmation."
     <-> exists x, In x (args c) /\ occursIn "-rf" x)
    /\ (In "-rf" (args c) ->
        In (byFlag "-rf" high "Recursively deletes without confirmation") (risks a)
        /\ riskLevel a = high
        /\ explanation a
           = Text "Deletes files/directories. Recursive mode (-rf) deletes everything in path WITHOUT confirmation."
        /\ occursIn "(recursively, with all contents)" (dryRun a)).
Proof.
  intros command c a Ht.
  assert (Hlive : Js.truthy (tool c) = true) by (rewrite Ht; reflexivity).
  destruct (live_analysis command Hlive) as (_ & Hexp & Hdry & _).
  fold c in Hexp, Hdry. fold a in Hexp, Hdry. rewrite Ht in Hexp, Hdry.
  assert (Hjoin : occursIn "-rf" (Js.join " " (args c))
                  <-> exists x, In x (args c) /\ occursIn "-rf" x).
  { apply occursIn_join; [discriminate | simpl; intuition discriminate]. }
  assert (Hiff : explanation a
                 = Text "Deletes files/directories. Recursive mode (-rf) deletes everything in path WITHOUT confirmation."
                 <-> exists x, In x (args c) /\ occursIn "-rf" x).
  { rewrite <- Hjoin, <- includes_iff, Hexp.
    unfold generateExplanation, Js.get.
    cbn [explanations Js.getOwn String.eqb Ascii.eqb Bool.eqb].
    destruct (Js.includes (Js.join " " (args c)) "-rf").
    - split; reflexivity.
    - destruct (Js.includes (Js.join " " (args c)) "-r");
        split; intros H; discriminate. }
  split; [exact Hiff|]. intros Hin.
  assert (Hflag : Js.arrIncludes (args c) "-rf" = true) by now apply arrIncludes_In.
  assert (Hrisk : In (byFlag "-rf" high "Recursively deletes without confirmation")
                     (risks a)).
  { unfold a. rewrite (risks_of_live_command command Hlive). fold c. rewrite Ht.
    apply in_or_app. left. rewrite (analyzeRisks_own "rm" _ _ eq_refl).
    apply in_or_app. left. cbn [p_risks]. apply directRisks_In.
    exists (byFlag "-rf" high "Recursively deletes without confirmation").
    split; [now left|]. left. split; [|reflexivity].
    unfold flagHit. cbn [flag byFlag Js.truthy String.eqb negb andb]. exact Hflag. }
  split; [exact Hrisk|]. split; [|split].
  - unfold a. rewrite riskLevel_aggregates.
    now apply (AggregatorFacts.high_dominates _ _ Hrisk).
  - apply Hiff. exists "-rf". split; [exact Hin | apply occursIn_refl].
  - rewrite Hdry. unfold generateDryRun.
    cbn [String.eqb Ascii.eqb Bool.eqb]. rewrite Hflag.
    match goal with
    | |- occursIn _ (_ ++ ?targets ++ _ ++ _) =>
        exists ("Would delete: " ++ targets ++ " "), " WITHOUT recovery."
    end.
    rewrite !append_assoc. reflexivity.
Qed.

Lemma rm_rf_explained_and_flagged_witness :
  explanation (analyzeCommand "rm -rfx /tmp")
  = Text "Deletes files/directories. Recursive mode (-rf) deletes everything in path WITHOUT confirmation.".
Proof.
  apply (proj1 (rm_rf_explained_and_flagged "rm -rfx /tmp" eq_refl)).
  exists "-rfx". split; [left; reflexivity|].
  exists EmptyString, "x". reflexivity.
Defined.

(** X19.  A git command whose first argument is push and that has a --force
    token gets the high --force finding, risk level high, the force-push
    explanation (which names the subcommand by its first letter only) and
    the force-push dry-run, whatever else it carries. *)
Theorem git_push_force_verdict :
  forall command : string,
    let c := parseCommand command in
    let a := analyzeCommand command in
    tool c = "git" -> nth_error (args c) 0 = Some "push" -> In "--force" (args c) ->
    In (byFlag "--force" high "Overwrites remote history; may affect team") (risks a)
    /\ riskLevel a = high
    /\ explanation a
       = Text "Git command: p. Force-push: overwrites remote history. Risky on shared repos."
    /\ dryRun a
       = "Would overwrite remote history with local commits. Team members with old clones would need to force-pull.".
Proof.
  intros command c a Ht Hpush Hforce.
  assert (Hlive : Js.truthy (tool c) = true) by (rewrite Ht; reflexivity).
  destruct (live_analysis command Hlive) as (_ & Hexp & Hdry & _).
  fold c in Hexp, Hdry. fold a in Hexp, Hdry. rewrite Ht in Hexp, Hdry.
  assert (Hflag : Js.arrIncludes (args c) "--force" = true) by now apply arrIncludes_In.
  assert (Hrisk : In (byFlag "--force" high "Overwrites remote history; may affect team")
                     (risks a)).
  { unfold a. rewrite (risks_of_live_command command Hlive). fold c. rewrite Ht.
    apply in_or_app. left. rewrite (analyzeRisks_own "git" _ _ eq_refl).
    cbn [p_risks p_subcommands app]. rewrite Hpush.
    change (Js.truthy "push") with true. cbv iota.
    change (Js.get _ "push")
      with (Js.Own (SubRisks
                      [ byFlag "--force" high "Overwrites remote history; may affect team";
                        byFlag "-f" high "Same as --force; destructive to shared repo" ]
                      (Some "git push --force-with-lease (checks remote changes first)")
                      None)).
    cbn [subRisks]. apply subcommandRisks_In.
    exists (byFlag "--force" high "Overwrites remote history; may affect team"), "--force".
    repeat split; [now left | exact Hflag]. }
  split; [exact Hrisk|]. split; [|split].
  - unfold a. rewrite riskLevel_aggregates.
    now apply (AggregatorFacts.high_dominates _ _ Hrisk).
  - rewrite Hexp. unfold generateExplanation, Js.get.
    assert (Hinc : Js.includes (Js.join " " (args c)) "--force" = true)
      by (apply includes_iff; now apply member_in_join).
    destruct (first_argument_leads_join _ _ Hpush) as [rest Hjoin].
    cbn [explanations Js.getOwn String.eqb Ascii.eqb Bool.eqb].
    assert (Hstart : String.prefix "push" (Js.join " " (args c)) = true)
      by (apply prefix_iff; eauto).
    unfold handleGitExplanation, Js.startsWith. rewrite Hinc, Hstart, Hjoin.
    reflexivity.
  - rewrite Hdry. unfold generateDryRun, argIs. rewrite Hpush, Hflag. reflexivity.
Qed.

Lemma git_push_force_verdict_witness :
  riskLevel (analyzeCommand "git push origin main --force") = high.
Proof.
  refine (proj1 (proj2 (git_push_force_verdict "git push origin main --force"
                          eq_refl eq_refl _))).
  simpl. tauto.
Defined.

(** X20.  Except for curl and wget, the verdict depends on the tokens only:
    two commands that parse to the same tool and arguments get the same
    findings, risk level, explanation and dry-run, however their white space
    differs. *)
Theorem verdict_depends_on_tokens :
  forall command1 command2 : string,
    parseCommand command1 = parseCommand command2 ->
    tool (parseCommand command1) <> "curl" ->
    tool (parseCommand command1) <> "wget" ->
    risks (analyzeCommand command1) = risks (analyzeCommand command2)
    /\ riskLevel (analyzeCommand command1) = riskLevel (analyzeCommand command2)
    /\ explanation (analyzeCommand command1) = explanation (analyzeCommand command2)
    /\ dryRun (analyzeCommand command1) = dryRun (analyzeCommand command2).
Proof.
  intros command1 command2 Hparse Hcurl Hwget.
  unfold analyzeCommand. rewrite <- Hparse.
  destruct (parseCommand command1) as [t xs]. simpl in Hcurl, Hwget.
  destruct (negb (Js.truthy t)); [repeat split|].
  assert (Hpipe : forall command ra,
             checkPipeRisks command t xs ra
             = if (t =? "docker") && argIs xs 0 "system" && argIs xs 1 "prune"
                  && Js.arrIncludes xs "-a"
               then [ mkRisk (Some "-a") None high
                        "Removes all unused images including tagged ones" ]
               else []).
  { intros command ra. unfold checkPipeRisks.
    apply String.eqb_neq in Hcurl. apply String.eqb_neq in Hwget.
    rewrite Hcurl, Hwget. reflexivity. }
  cbn [risks riskLevel explanation dryRun]. rewrite !Hpipe. repeat split.
Qed.

Lemma verdict_depends_on_tokens_witness :
  risks (analyzeCommand "  rm    -rf   /tmp ") = risks (analyzeCommand "rm -rf /tmp").
Proof.
  refine (proj1 (verdict_depends_on_tokens "  rm    -rf   /tmp " "rm -rf /tmp" eq_refl _ _));
    discriminate.
Defined.

(** ** The confirmation prompt *)

Section PromptFacts.

Lemma lowerChar_y (c : ascii) :
  Cli.lowerChar c = "y"%char -> c = "y"%char \/ c = "Y"%char.
Proof.
  destruct c as [[] [] [] [] [] [] [] []]; vm_compute; intros H;
    try discriminate; auto.
Qed.

Lemma lowerChar_e (c : ascii) :
  Cli.lowerChar c = "e"%char -> c = "e"%char \/ c = "E"%char.
Proof.
  destruct c as [[] [] [] [] [] [] [] []]; vm_compute; intros H;
    try discriminate; auto.
Qed.

Lemma lowerChar_s (c : ascii) :
  Cli.lowerChar c = "s"%char -> c = "s"%char \/ c = "S"%char.
Proof.
  destruct c as [[] [] [] [] [] [] [] []]; vm_compute; intros H;
    try discriminate; auto.
Qed.

End PromptFacts.

(** X21.  The prompt never confirms.  The test of the line handler holds on
    exactly ten answers (y, Y and the eight spellings of yes in upper and
    lower case), but the handler closes the interface before it resolves, and
    closing resolves the promise with false first: whatever the line, and
    also when the input ends without one, the promise settles to false. *)
Theorem prompt_never_confirms :
  (forall line : option string, Cli.promptConfirm line = Some false)
  /\ (forall answer : string,
         Cli.confirms answer = true
         <-> In answer [ "y"; "Y"; "yes"; "yeS"; "yEs"; "yES";
                         "Yes"; "YeS"; "YEs"; "YES" ]).
Proof.
  split.
  - intros [answer|]; [|reflexivity].
    unfold Cli.promptConfirm, Cli.onLine, Cli.onClose. reflexivity.
  - intros answer. split.
    + intros H. unfold Cli.confirms in H. apply orb_true_iff in H.
      destruct H as [H|H]; apply String.eqb_eq in H.
      * destruct answer as [|c1 [|c2 r]]; simpl in H; try discriminate.
        inversion H as [H1].
        destruct (lowerChar_y c1 H1) as [->| ->]; simpl; auto.
      * destruct answer as [|c1 [|c2 [|c3 [|c4 r]]]]; simpl in H; try discriminate.
        inversion H as [[H1 H2 H3]].
        destruct (lowerChar_y c1 H1) as [->| ->];
          destruct (lowerChar_e c2 H2) as [->| ->];
          destruct (lowerChar_s c3 H3) as [->| ->]; simpl; auto 12.
    + intros Hin. simpl in Hin.
      repeat (destruct Hin as [<-|Hin]; [reflexivity|]). destruct Hin.
Qed.

(** ** Verdicts tool by tool *)

(** X22.  The verdict on rm is decided by three exact tokens: high when -rf
    or -f is among the arguments, medium when -r is and neither of those,
    and otherwise low with no finding, so that flags combined in another
    spelling (-fr, -Rf, --recursive) are not flagged. *)
Theorem rm_verdict :
  forall command : string,
    let c := parseCommand command in
    let a := analyzeCommand command in
    tool c = "rm" ->
    (In "-rf" (args c) \/ In "-f" (args c) -> riskLevel a = high)
    /\ (~ In "-rf" (args c) -> ~ In "-f" (args c) -> In "-r" (args c) ->
        riskLevel a = medium)
    /\ (~ In "-rf" (args c) -> ~ In "-f" (args c) -> ~ In "-r" (args c) ->
        risks a = [] /\ riskLevel a = low).
Proof.
  intros command c a Ht.
  assert (Hlive : Js.truthy (tool c) = true) by (rewrite Ht; reflexivity).
  assert (Hres : risks a
                 = ((if Js.arrIncludes (args c) "-rf"
                     then [byFlag "-rf" high "Recursively deletes without confirmation"]
                     else [])
                    ++ (if Js.arrIncludes (args c) "-f"
                        then [byFlag "-f" high "Forces deletion, ignores permissions"]
                        else [])
                    ++ (if Js.arrIncludes (args c) "-r"
                        then [byFlag "-r" medium
                                "Recursive deletion; combine with -f for high risk"]
                        else []))%list).
  { unfold a. rewrite (risks_of_live_command command Hlive). fold c. rewrite Ht.
    rewrite (analyzeRisks_own "rm" _ _ eq_refl).
    cbn [p_risks p_subcommands flat_map]. unfold directRisks, flagHit, patternHit.
    cbn [flag pattern byFlag risk reason Js.truthy String.eqb negb andb].
    unfold checkPipeRisks. cbn [String.eqb Ascii.eqb Bool.eqb orb andb].
    destruct (Js.arrIncludes (args c) "-rf"), (Js.arrIncludes (args c) "-f"),
      (Js.arrIncludes (args c) "-r"); reflexivity. }
  assert (Hmem : forall f, Js.arrIncludes (args c) f = false <-> ~ In f (args c)).
  { intros f. rewrite <- arrIncludes_In. destruct (Js.arrIncludes (args c) f); split;
      congruence. }
  unfold a in *. rewrite riskLevel_aggregates, Hres. split; [|split].
  - intros [H|H]; apply arrIncludes_In in H; rewrite H;
      destruct (Js.arrIncludes (args c) "-rf"), (Js.arrIncludes (args c) "-f"),
        (Js.arrIncludes (args c) "-r"); try discriminate; reflexivity.
  - intros H1 H2 H3. apply Hmem in H1, H2. apply arrIncludes_In in H3.
    rewrite H1, H2, H3. reflexivity.
  - intros H1 H2 H3. apply Hmem in H1, H2, H3. rewrite H1, H2, H3. split; reflexivity.
Qed.

Lemma rm_verdict_witness :
  risks (analyzeCommand "rm -fr /") = [] /\ riskLevel (analyzeCommand "rm -fr /") = low.
Proof.
  apply (proj2 (proj2 (rm_verdict "rm -fr /" eq_refl)));
    simpl; intuition discriminate.
Defined.

(** X23.  A tool without a catalog entry is never flagged: whatever the
    command, if its tool is not a key of the pattern catalog the analysis has
    no finding and risk level low. *)
Theorem uncatalogued_tool_never_flagged :
  forall command : string,
    let c := parseCommand command in
    ~ In (tool c) (map fst riskPatterns) ->
    risks (analyzeCommand command) = []
    /\ riskLevel (analyzeCommand command) = low.
Proof.
  intros command c Hcat.
  assert (Hres : risks (analyzeCommand command) = []).
  { destruct (Js.truthy (tool c)) eqn:Hlive.
    - rewrite (risks_of_live_command command Hlive). fold c.
      rewrite analyzeRisks_not_own by (now apply get_undeclared).
      assert (Hkey : forall k, In k (map fst riskPatterns) -> (tool c =? k) = false)
        by (intros k; now apply not_key).
      unfold checkPipeRisks.
      rewrite (Hkey "curl"), (Hkey "wget"), (Hkey "docker") by (simpl; tauto).
      reflexivity.
    - now apply risks_of_empty_command. }
  split; [exact Hres|]. rewrite riskLevel_aggregates, Hres. reflexivity.
Qed.

Lemma uncatalogued_tool_never_flagged_witness :
  risks (analyzeCommand "mkfs.ext4 /dev/sda1") = []
  /\ riskLevel (analyzeCommand "mkfs.ext4 /dev/sda1") = low.
Proof.
  apply (uncatalogued_tool_never_flagged "mkfs.ext4 /dev/sda1").
  simpl. intuition discriminate.
Defined.
